(** * Position-aware order execution engine (trading.py)

    A shallow embedding of the order engine of the Shioaji dashboard:
    contract directory, position reader, entry and exit order placement and
    the order status check, followed by the properties proved about them.

    Python [int] is [Z]; Python [float] is the binary64 [float] of the
    kernel, with its rounded operations; [str] is [string].  Exceptions and
    calls made through the
    brokerage session are explicit: a computation takes the trace of session
    calls made so far and yields either a value or a raised exception, with
    the extended trace. *)

From Stdlib Require Import ZArith List String Bool Lia.
From Stdlib Require Import PrimFloat.
From Stdlib Require FloatOps SpecFloat.
Import ListNotations.

Local Open Scope string_scope.
Local Open Scope list_scope.
Local Open Scope Z_scope.

(* ===================================================================== *)
(** ** Exceptions *)

(** The exception classes the module defines, imports from [shioaji.error]
    or raises itself; any other class derived from [Exception] is
    [OtherException] with its class name. *)
Inductive ExcClass : Type :=
| ValueError
| ShioajiError
| LoginError
| OrderError
| TokenError
| SystemMaintenance
| SjTimeoutError
| AccountNotSignError
| AccountNotProvideError
| TargetContractNotExistError
| OtherException (class_name : string).

(** An exception instance: its class, the text [str(e)] gives, and the
    [__cause__] set by [raise ... from e]. *)
#[warnings="-register-all"]
Inductive Exc : Type :=
| MkExc (cls : ExcClass) (msg : string) (cause : option Exc).

Definition exc_class (e : Exc) : ExcClass := let '(MkExc c _ _) := e in c.
Definition str_exc (e : Exc) : string := let '(MkExc _ m _) := e in m.
Definition exc_cause (e : Exc) : option Exc := let '(MkExc _ _ c) := e in c.

(** [raise Cls(msg)] and [raise Cls(msg) from e]. *)
Definition new_exc (c : ExcClass) (m : string) : Exc := MkExc c m None.
Definition new_exc_from (c : ExcClass) (m : string) (e : Exc) : Exc :=
  MkExc c m (Some e).

Definition is_OrderError (e : Exc) : bool :=
  match exc_class e with OrderError => true | _ => false end.

(** [except (AccountNotSignError, AccountNotProvideError)]. *)
Definition is_account_error (e : Exc) : bool :=
  match exc_class e with
  | AccountNotSignError | AccountNotProvideError => true
  | _ => false
  end.

(* ===================================================================== *)
(** ** Data model *)

(** [sj.constant.Action]. *)
Inductive Action : Type := Buy | Sell.

Definition Action_eqb (a b : Action) : bool :=
  match a, b with
  | Buy, Buy | Sell, Sell => true
  | _, _ => false
  end.

Inductive FuturesPriceType : Type := LMT | MKT | MKP.
Inductive OrderType : Type := ROD | IOC | FOK.
Inductive FuturesOCType : Type := Auto | New | Cover | DayTrade.

(** The fields of a [Contract] that the engine reads. *)
Record Contract : Type := mkContract {
  symbol : string;
  code : string;
  category : string;
  delivery_month : string;
  name : string
}.

(** The [direction] attribute of a position as the exchange returned it:
    one of the two [Action] members, or anything else (kept as its text). *)
Inductive Direction : Type :=
| DirAction (a : Action)
| DirOther (raw : string).

Module Position.
Record t : Type := mk {
  code : string;
  direction : Direction;
  quantity : Z
}.
End Position.

Module Order.
(** [api.Order(...)]; [id], [seqno] and [ordno] are filled in by the
    brokerage (absent attributes are [None]).  The account is the
    session's single futures account and is left out. *)
Record t : Type := mk {
  action : Action;
  price : float;
  quantity : Z;
  price_type : FuturesPriceType;
  order_type : OrderType;
  octype : FuturesOCType;
  id : option string;
  seqno : option string;
  ordno : option string
}.
End Order.

Module Deal.
Record t : Type := mk {
  seq : option string;
  price : float;
  quantity : Z;
  ts : option float
}.
End Deal.

(** [Status] enum of an order, and the [status] attribute, which the code
    reads through [.value] when present and through [str] otherwise. *)
Inductive Status : Type :=
| PendingSubmit | PreSubmitted | Submitted | PartFilled
| Filled | Cancelled | Failed | Inactive.

Definition Status_value (s : Status) : string :=
  match s with
  | PendingSubmit => "PendingSubmit"
  | PreSubmitted => "PreSubmitted"
  | Submitted => "Submitted"
  | PartFilled => "PartFilled"
  | Filled => "Filled"
  | Cancelled => "Cancelled"
  | Failed => "Failed"
  | Inactive => "Inactive"
  end.

Inductive StatusAttr : Type :=
| StatusEnum (s : Status)
| StatusPlain (text : string).

Module OrderStatus.
(** Attributes read with [getattr(..., default)] or [hasattr] are
    optional; [deals] may be [None] or a list. *)
Record t : Type := mk {
  status : StatusAttr;
  status_code : option string;
  msg : option string;
  order_quantity : option Z;
  deal_quantity : option Z;
  cancel_quantity : option Z;
  deals : option (list Deal.t)
}.
End OrderStatus.

Module Trade.
Record t : Type := mk {
  order : Order.t;
  status : OrderStatus.t
}.
End Trade.

(* ===================================================================== *)
(** ** Computations: session-call trace and exceptions *)

(** A call made through the brokerage session to the exchange. *)
Inductive ApiCall : Type :=
| CallListPositions
| CallPlaceOrder (c : Contract) (o : Order.t)
| CallUpdateStatus (t : Trade.t).

Definition Trace : Type := list ApiCall.

Inductive Outcome (A : Type) : Type :=
| Return (a : A)
| Raise (e : Exc).
Arguments Return {A} a.
Arguments Raise {A} e.

Definition Py (A : Type) : Type := Trace -> Outcome A * Trace.

Definition ret {A} (a : A) : Py A := fun tr => (Return a, tr).
Definition raise {A} (e : Exc) : Py A := fun tr => (Raise e, tr).
Definition lift {A} (o : Outcome A) : Py A := fun tr => (o, tr).

Definition bind {A B} (m : Py A) (k : A -> Py B) : Py B :=
  fun tr =>
    match m tr with
    | (Return a, tr') => k a tr'
    | (Raise e, tr') => (Raise e, tr')
    end.

(** [try: m  except ...: h e]; a handler re-raises what no clause matches. *)
Definition try_except {A} (m : Py A) (h : Exc -> Py A) : Py A :=
  fun tr =>
    match m tr with
    | (Return a, tr') => (Return a, tr')
    | (Raise e, tr') => h e tr'
    end.

Notation "x <- m ;; k" := (bind m (fun x => k))
  (at level 61, m at next level, right associativity).

(** The stored orders of a trace: what reached the order-submission
    boundary. *)
Definition submitted (tr : Trace) : list (Contract * Order.t) :=
  flat_map (fun c => match c with
                     | CallPlaceOrder k o => [(k, o)]
                     | _ => []
                     end) tr.

(** The brokerage session as the engine sees it: the futures catalog
    ([api.Contracts.Futures], read by attribute name) and the answers of
    the exchange to the three calls the engine makes. *)
Record Shioaji : Type := mkShioaji {
  Futures : string -> option (list Contract);
  on_list_positions : Outcome (list Position.t);
  on_place_order : Contract -> Order.t -> Outcome Trade.t;
  on_update_status : Trade.t -> Outcome Trade.t
}.

Definition list_positions (api : Shioaji) : Py (list Position.t) :=
  fun tr => (on_list_positions api, tr ++ [CallListPositions]).

Definition place_order (api : Shioaji) (c : Contract) (o : Order.t)
  : Py Trade.t :=
  fun tr => (on_place_order api c o, tr ++ [CallPlaceOrder c o]).

(** [api.update_status(trade=trade)] refreshes the trade in place; the
    result is the trade as it reads afterwards. *)
Definition update_status (api : Shioaji) (t : Trade.t) : Py Trade.t :=
  fun tr => (on_update_status api t, tr ++ [CallUpdateStatus t]).

(* ===================================================================== *)
(** ** Small pieces of Python *)

(** [x or 0] on an optional integer: [None] and [0] are falsy. *)
Definition or_0 (x : option Z) : Z :=
  match x with
  | Some v => if v =? 0 then 0 else v
  | None => 0
  end.

(** [repr] of a list of strings as an f-string prints it (quotes inside an
    item are not escaped here; only error texts depend on it). *)
Definition repr_str (s : string) : string := "'" ++ s ++ "'".
Definition repr_list (l : list string) : string :=
  "[" ++ String.concat ", " (map repr_str l) ++ "]".

(** An integer operand of a float operation is converted to the nearest
    float, ties to even.  (Beyond the float range, from about 1.8e308 on,
    Python raises OverflowError where this gives infinity; the statements
    about averages below keep the quantities within the range.) *)
Definition float_of_int (z : Z) : float :=
  FloatOps.SF2Prim
    (SpecFloat.binary_normalize FloatOps.prec FloatOps.emax z 0 false).

(** [sum(...)] starts from the integer 0 and adds from the left; on floats
    each addition is rounded.  (This is the sum of CPython up to 3.11.
    From 3.12 on, [sum] also carries the rounding errors of the additions
    and adds them back at the end: the result is the same for one or two
    items and may differ in the last bits for three or more.) *)
Definition sum_float (l : list float) : float :=
  fold_left add l (float_of_int 0).
Definition sum_Z (l : list Z) : Z := fold_left Z.add l 0.

(** [a / b] with a float dividend and an integer divisor: true division in
    binary64, which raises on zero. *)
Definition truediv (a : float) (b : Z) : Outcome float :=
  if b =? 0
  then Raise (new_exc (OtherException "ZeroDivisionError")
                "float division by zero")
  else Return (a / float_of_int b)%float.

(* ===================================================================== *)
(** ** The engine *)

Section Engine.

(** The supported product families, read from the environment when the
    module is loaded. *)
Variable SUPPORTED_FUTURES : list string.

(** *** Contract directory *)

(** A family that the catalog lacks (or lists empty) is logged and adds
    nothing. *)
Definition _get_futures_contracts (api : Shioaji) : list Contract :=
  flat_map
    (fun product =>
       match Futures api product with
       | Some product_contracts =>
           filter (fun c => String.prefix product (symbol c)) product_contracts
       | None => []
       end)
    SUPPORTED_FUTURES.

Definition get_valid_symbols (api : Shioaji) : list string :=
  map symbol (_get_futures_contracts api).

Definition get_valid_contract_codes (api : Shioaji) : list string :=
  map code (_get_futures_contracts api).

Definition get_contract_from_symbol (api : Shioaji) (sym : string)
  : Outcome Contract :=
  match find (fun contract => symbol contract =? sym)%string
             (_get_futures_contracts api) with
  | Some contract => Return contract
  | None =>
      Raise (new_exc ValueError
               ("Contract " ++ sym ++ " not found in supported futures: "
                ++ repr_list SUPPORTED_FUTURES))
  end.

Definition get_contract_from_contract_code (api : Shioaji)
  (contract_code : string) : Outcome Contract :=
  match find (fun contract => code contract =? contract_code)%string
             (_get_futures_contracts api) with
  | Some contract => Return contract
  | None =>
      Raise (new_exc ValueError
               ("Contract " ++ contract_code
                ++ " not found in supported futures: "
                ++ repr_list SUPPORTED_FUTURES))
  end.

(** The test of the loop in [resolve_actual_contract_code]. *)
Definition is_actual_of (contract c : Contract) : bool :=
  (category c =? category contract)%string
  && (delivery_month c =? delivery_month contract)%string
  && negb (code c =? symbol c)%string.

Definition resolve_actual_contract_code (api : Shioaji) (contract : Contract)
  : string :=
  if negb (code contract =? symbol contract)%string then code contract
  else
    match find (is_actual_of contract) (_get_futures_contracts api) with
    | Some c => code c
    | None => code contract
    end.

(** *** Position reader *)

(** The loop over the position list: the first entry with the resolved
    code decides. *)
Fixpoint scan_positions (actual_code : string) (positions : list Position.t)
  : Outcome (option Z) :=
  match positions with
  | [] => Return None
  | position :: rest =>
      if (actual_code =? Position.code position)%string then
        match Position.direction position with
        | DirAction Buy => Return (Some (Position.quantity position))
        | DirAction Sell => Return (Some (- Position.quantity position))
        | DirOther raw =>
            Raise (new_exc ValueError
                     ("Position " ++ Position.code position
                      ++ " has invalid direction: " ++ raw))
        end
      else scan_positions actual_code rest
  end.

Definition get_current_position (api : Shioaji) (contract : Contract)
  : Py (option Z) :=
  let actual_code := resolve_actual_contract_code api contract in
  positions <- list_positions api ;;
  lift (scan_positions actual_code positions).

(** *** Order placement *)

(** The fields both placement functions give to [api.Order]: price 0.0,
    market, immediate or cancel, automatic open/close. *)
Definition market_order (action : Action) (quantity : Z) : Order.t :=
  Order.mk action 0%float quantity MKT IOC Auto None None None.

(** [api.Order(...)] with those fields.  The order class of the brokerage
    library validates its fields when it is built: the quantity must be
    greater than 0, otherwise the constructor raises a validation error
    (its text is abridged here). *)
Definition api_Order (action : Action) (quantity : Z) : Outcome Order.t :=
  if quantity >? 0
  then Return (market_order action quantity)
  else Raise (new_exc (OtherException "ValidationError")
                "quantity: ensure this value is greater than 0").

(** [except ValueError] around the symbol lookup. *)
Definition on_lookup_error {A} (e : Exc) : Py A :=
  match exc_class e with
  | ValueError =>
      raise (new_exc_from OrderError ("Contract not found: " ++ str_exc e) e)
  | _ => raise e
  end.

(** [except (AccountNotSignError, AccountNotProvideError)] around the
    position read; anything else passes through. *)
Definition on_position_error {A} (e : Exc) : Py A :=
  if is_account_error e
  then raise (new_exc_from OrderError ("Account error: " ++ str_exc e) e)
  else raise e.

(** The four [except] clauses around [api.place_order]. *)
Definition on_submit_error {A} (e : Exc) : Py A :=
  match exc_class e with
  | TargetContractNotExistError =>
      raise (new_exc_from OrderError
               ("Target contract not exist: " ++ str_exc e) e)
  | SjTimeoutError =>
      raise (new_exc_from OrderError ("Order timeout: " ++ str_exc e) e)
  | AccountNotSignError | AccountNotProvideError =>
      raise (new_exc_from OrderError ("Account error: " ++ str_exc e) e)
  | _ =>
      raise (new_exc_from OrderError
               ("Unexpected error when placing order: " ++ str_exc e) e)
  end.

(** The quantity adjustment of [place_entry_order]. *)
Definition entry_quantity (action : Action) (quantity current_position : Z)
  : Z :=
  if Action_eqb action Buy && (current_position <? 0)
  then quantity - current_position
  else if Action_eqb action Sell && (current_position >? 0)
  then quantity + current_position
  else quantity.

Definition place_entry_order (api : Shioaji) (sym : string) (quantity : Z)
  (action : Action) : Py Trade.t :=
  contract <- try_except (lift (get_contract_from_symbol api sym))
                         on_lookup_error ;;
  current_position <-
    try_except (p <- get_current_position api contract ;; ret (or_0 p))
               on_position_error ;;
  let quantity := entry_quantity action quantity current_position in
  order <- lift (api_Order action quantity) ;;
  try_except (place_order api contract order) on_submit_error.

(** The order [place_exit_order] builds, if any: the outcome of the
    constructor call of the branch taken. *)
Definition exit_order (position_direction : Action) (current_position : Z)
  : option (Outcome Order.t) :=
  if Action_eqb position_direction Buy && (current_position >? 0)
  then Some (api_Order Sell current_position)
  else if Action_eqb position_direction Sell && (current_position <? 0)
  then Some (api_Order Buy (- current_position))
  else None.

Definition place_exit_order (api : Shioaji) (sym : string)
  (position_direction : Action) : Py (option Trade.t) :=
  contract <- try_except (lift (get_contract_from_symbol api sym))
                         on_lookup_error ;;
  current_position <-
    try_except (p <- get_current_position api contract ;; ret (or_0 p))
               on_position_error ;;
  match exit_order position_direction current_position with
  | None => ret None
  | Some built =>
      order <- lift built ;;
      try_except (result <- place_order api contract order ;;
                  ret (Some result))
                 on_submit_error
  end.

End Engine.

(* ===================================================================== *)
(** ** Order status check *)

Module DealInfo.
(** One entry of the ["deals"] list of the result. *)
Record t : Type := mk {
  seq : string;
  price : float;
  quantity : Z;
  ts : float
}.
End DealInfo.

Module FillReport.
(** The result dictionary of a completed status check, key by key. *)
Record t : Type := mk {
  status : string;
  status_code : string;
  msg : string;
  order_id : string;
  seqno : string;
  ordno : string;
  order_quantity : Z;
  deal_quantity : Z;
  cancel_quantity : Z;
  fill_avg_price : float;
  deals : list DealInfo.t
}.
End FillReport.

(** What [check_order_status] returns: the two-key dictionary
    [{"status": ..., "error": ...}] or the full one. *)
Inductive Report : Type :=
| Brief (status error : string)
| Full (r : FillReport.t).

Definition report_status (r : Report) : string :=
  match r with
  | Brief s _ => s
  | Full f => FillReport.status f
  end.

Definition report_error (r : Report) : option string :=
  match r with
  | Brief _ e => Some e
  | Full _ => None
  end.

(** [getattr(obj, name, default)] on an optional attribute (the same
    value as [obj.name if hasattr(obj, name) else default]). *)
Definition getattr {A} (x : option A) (default : A) : A :=
  match x with Some v => v | None => default end.

(** [x if x else []]: [None] and the empty list are falsy. *)
Definition or_nil {A} (x : option (list A)) : list A :=
  match x with Some (a :: l) => a :: l | _ => [] end.

(** [d.price * d.quantity]: a float times an integer. *)
Definition deal_value (d : Deal.t) : float :=
  (Deal.price d * float_of_int (Deal.quantity d))%float.

(** The integer 0 of the empty case is never divided; it stands here as
    the float zero. *)
Definition total_value (deals : list Deal.t) : float :=
  match deals with
  | [] => float_of_int 0
  | _ => sum_float (map deal_value deals)
  end.

Definition total_qty (deals : list Deal.t) : Z :=
  match deals with
  | [] => 0
  | _ => sum_Z (map Deal.quantity deals)
  end.

(** [total_value / total_qty if total_qty > 0 else 0.0]. *)
Definition fill_avg_price (deals : list Deal.t) : Outcome float :=
  if total_qty deals >? 0
  then truediv (total_value deals) (total_qty deals)
  else Return 0%float.

Definition status_value (s : StatusAttr) : string :=
  match s with
  | StatusEnum v => Status_value v
  | StatusPlain text => text
  end.

Definition deal_info (d : Deal.t) : DealInfo.t :=
  DealInfo.mk (getattr (Deal.seq d) "") (Deal.price d) (Deal.quantity d)
              (getattr (Deal.ts d) 0%float).

(** The body of the [try] block once the trade has been refreshed. *)
Definition read_status (trade : Trade.t) : Outcome Report :=
  let status_obj := Trade.status trade in
  let order_obj := Trade.order trade in
  let deals := or_nil (OrderStatus.deals status_obj) in
  let deal_quantity := getattr (OrderStatus.deal_quantity status_obj) 0 in
  match fill_avg_price deals with
  | Raise e => Raise e
  | Return avg =>
      Return (Full (FillReport.mk
        (status_value (OrderStatus.status status_obj))
        (getattr (OrderStatus.status_code status_obj) "")
        (getattr (OrderStatus.msg status_obj) "")
        (getattr (Order.id order_obj) "")
        (getattr (Order.seqno order_obj) "")
        (getattr (Order.ordno order_obj) "")
        (let q := getattr (OrderStatus.order_quantity status_obj) 0 in
         if q =? 0 then Order.quantity order_obj else q)
        deal_quantity
        (getattr (OrderStatus.cancel_quantity status_obj) 0)
        avg
        (map deal_info deals)))
  end.

(** The trade handle is a [Trade] or [None]. *)
Definition check_order_status (api : Shioaji) (trade : option Trade.t)
  : Py Report :=
  match trade with
  | None => ret (Brief "no_trade" "No trade object provided")
  | Some trade =>
      try_except
        (refreshed <- update_status api trade ;;
         lift (read_status refreshed))
        (fun e => ret (Brief "error" (str_exc e)))
  end.

(* ===================================================================== *)
(** ** Request dispatch (main.py) *)

(** The four actions a request may carry. *)
Inductive ACCEPT_ACTIONS : Type :=
| long_entry | long_exit | short_entry | short_exit.

(** The dispatch of [create_order] on the action of the request, as the
    [try] block has it; the audit record and the HTTP answer built around
    it are left out.  The request model accepts only [quantity > 0]. *)
Definition dispatch_order (SUPPORTED_FUTURES : list string) (api : Shioaji)
  (action : ACCEPT_ACTIONS) (sym : string) (quantity : Z)
  : Py (option Trade.t) :=
  match action with
  | long_entry =>
      result <- place_entry_order SUPPORTED_FUTURES api sym quantity Buy ;;
      ret (Some result)
  | short_entry =>
      result <- place_entry_order SUPPORTED_FUTURES api sym quantity Sell ;;
      ret (Some result)
  | long_exit => place_exit_order SUPPORTED_FUTURES api sym Buy
  | short_exit => place_exit_order SUPPORTED_FUTURES api sym Sell
  end.

(* ===================================================================== *)
(** ** Notions used by the statements *)

(** A tradable contract that is an actual contract of the family and
    month of [contract]. *)
Definition actual_for (contract c : Contract) : Prop :=
  category c = category contract /\
  delivery_month c = delivery_month contract /\
  code c <> symbol c.

(** What one position entry stands for: [+quantity] when long,
    [-quantity] when short, nothing when its direction is neither. *)
Definition signed_quantity (p : Position.t) : option Z :=
  match Position.direction p with
  | DirAction Buy => Some (Position.quantity p)
  | DirAction Sell => Some (- Position.quantity p)
  | DirOther _ => None
  end.

(** The net quantity over all entries of a code, were they added up. *)
Fixpoint net_quantity (actual_code : string) (positions : list Position.t)
  : Z :=
  match positions with
  | [] => 0
  | p :: rest =>
      (if (actual_code =? Position.code p)%string
       then match signed_quantity p with Some v => v | None => 0 end
       else 0)
      + net_quantity actual_code rest
  end.

(** The sums of the average fill price as the formula writes them: the
    sum of price times quantity, taken deal by deal in binary64 from a
    running total, and the sum of quantities, an integer. *)
Fixpoint weighted_sum_from (total : float) (deals : list Deal.t) : float :=
  match deals with
  | [] => total
  | d :: rest =>
      weighted_sum_from
        (total + Deal.price d * float_of_int (Deal.quantity d))%float rest
  end.

Definition weighted_sum (deals : list Deal.t) : float :=
  weighted_sum_from 0%float deals.

Fixpoint quantity_sum (deals : list Deal.t) : Z :=
  match deals with
  | [] => 0
  | d :: rest => Deal.quantity d + quantity_sum rest
  end.

(** Exit requests made one after the other against the same session. *)
Fixpoint exit_requests (SUPPORTED_FUTURES : list string) (api : Shioaji)
  (sym : string) (directions : list Action) : Py (list (option Trade.t)) :=
  match directions with
  | [] => ret []
  | d :: rest =>
      r <- place_exit_order SUPPORTED_FUTURES api sym d ;;
      rs <- exit_requests SUPPORTED_FUTURES api sym rest ;;
      ret (r :: rs)
  end.

(** The outcome of a computation started after the trace [tr], and the
    trace it leaves. *)
Definition run {A} (m : Py A) (tr : Trace) : Outcome A := fst (m tr).
Definition calls {A} (m : Py A) (tr : Trace) : Trace := snd (m tr).

(** [e'] is an [OrderError] raised from [e]: [e] is its cause and the text
    of [e] ends its message. *)
Definition wraps (e' e : Exc) : Prop :=
  exc_class e' = OrderError /\
  exc_cause e' = Some e /\
  exists label, str_exc e' = (label ++ str_exc e)%string.

(** Nothing but an [OrderError] comes out. *)
Definition only_OrderError {A} (o : Outcome A) : Prop :=
  match o with
  | Return _ => True
  | Raise e => exc_class e = OrderError
  end.

(* ===================================================================== *)
(** ** Sample session *)

Module Sample.

Definition families : list string := ["MXF"; "TXF"].

Definition MXFR1 : Contract :=
  mkContract "MXFR1" "MXFR1" "MXF" "202601" "near month".
Definition MXF202601 : Contract :=
  mkContract "MXF202601" "MXFA6" "MXF" "202601" "January".
Definition MXF202602 : Contract :=
  mkContract "MXF202602" "MXFB6" "MXF" "202602" "February".
Definition TXFR1 : Contract :=
  mkContract "TXFR1" "TXFR1" "TXF" "202601" "near month".

(** The TXF family has only its rolling alias: nothing to resolve to. *)
Definition catalog (product : string) : option (list Contract) :=
  if (product =? "MXF")%string then Some [MXFR1; MXF202601; MXF202602]
  else if (product =? "TXF")%string then Some [TXFR1]
  else None.

Definition idle : OrderStatus.t :=
  OrderStatus.mk (StatusEnum PendingSubmit) None None None None None None.

Definition accept (c : Contract) (o : Order.t) : Outcome Trade.t :=
  Return (Trade.mk o idle).

(** A session holding the given positions that accepts every order. *)
Definition session (positions : list Position.t) : Shioaji :=
  mkShioaji catalog (Return positions) accept (fun t => Return t).

(** The same session with an exchange that fails every submission and
    every status refresh with [e]. *)
Definition failing (positions : list Position.t) (e : Exc) : Shioaji :=
  mkShioaji catalog (Return positions)
            (fun _ _ => Raise e) (fun _ => Raise e).

Definition long (c : string) (q : Z) : Position.t :=
  Position.mk c (DirAction Buy) q.
Definition short (c : string) (q : Z) : Position.t :=
  Position.mk c (DirAction Sell) q.

Definition deal (p : float) (q : Z) : Deal.t := Deal.mk None p q None.

(** A session whose status refresh reports the given deals. *)
Definition filled (deals : list Deal.t) : Shioaji :=
  mkShioaji catalog (Return []) accept
            (fun t =>
               Return (Trade.mk (Trade.order t)
                         (OrderStatus.mk (StatusEnum Filled) None None None
                                         None None (Some deals)))).

(** The handle of an order of one contract, not yet refreshed. *)
Definition handle : Trade.t := Trade.mk (market_order Buy 1) idle.

End Sample.

(** The status check on a trade refreshed with [deals] reports the
    average [v]. *)
Definition reported_average (deals : list Deal.t) (v : float) : Prop :=
  exists f,
    run (check_order_status (Sample.filled deals) (Some Sample.handle)) []
    = Return (Full f) /\
    FillReport.fill_avg_price f = v.

(* ===================================================================== *)
(** ** Supported families from the environment *)

(** [str.isspace] on one character of ASCII text: tab to carriage return,
    the four separators and the space. *)
Definition isspace (c : Ascii.ascii) : bool :=
  let n := Ascii.nat_of_ascii c in
  (Nat.leb 9 n && Nat.leb n 13) || (Nat.leb 28 n && Nat.leb n 32).

(** [str.upper] on one character of ASCII text. *)
Definition upper_char (c : Ascii.ascii) : Ascii.ascii :=
  let n := Ascii.nat_of_ascii c in
  if Nat.leb 97 n && Nat.leb n 122 then Ascii.ascii_of_nat (n - 32) else c.

Definition is_comma (c : Ascii.ascii) : bool :=
  Nat.eqb (Ascii.nat_of_ascii c) 44.

Fixpoint upper (s : string) : string :=
  match s with
  | EmptyString => EmptyString
  | String c rest => String (upper_char c) (upper rest)
  end.

Fixpoint lstrip (s : string) : string :=
  match s with
  | EmptyString => EmptyString
  | String c rest => if isspace c then lstrip rest else s
  end.

Fixpoint rstrip (s : string) : string :=
  match s with
  | EmptyString => EmptyString
  | String c rest =>
      match rstrip rest with
      | EmptyString => if isspace c then EmptyString else String c EmptyString
      | kept => String c kept
      end
  end.

(** [s.strip()]. *)
Definition strip (s : string) : string := rstrip (lstrip s).

(** [s.split(",")]: never empty, the empty string gives one empty item. *)
Fixpoint split_comma (s : string) : list string :=
  match s with
  | EmptyString => [EmptyString]
  | String c rest =>
      if is_comma c then EmptyString :: split_comma rest
      else
        match split_comma rest with
        | item :: items => String c item :: items
        | [] => [String c EmptyString]
        end
  end.

(** The two lines that set [SUPPORTED_FUTURES] when the module is loaded,
    from the value of the environment variable of that name ([None] when
    it is not set). *)
Definition load_SUPPORTED_FUTURES (value : option string) : list string :=
  map (fun f => upper (strip f))
      (filter (fun f => negb (strip f =? "")%string)
              (split_comma (getattr value "MXF,TXF"))).

(** Text within ASCII, where the three string operations above are
    Python's. *)
Fixpoint ascii_only (s : string) : Prop :=
  match s with
  | EmptyString => True
  | String c rest => (Ascii.nat_of_ascii c < 128)%nat /\ ascii_only rest
  end.

(** No comma occurs in the text. *)
Fixpoint comma_free (s : string) : Prop :=
  match s with
  | EmptyString => True
  | String c rest => is_comma c = false /\ comma_free rest
  end.

(* ===================================================================== *)
(** ** Login *)

(** Computations over any state: the same shape as [Py]. *)
Definition St (S A : Type) : Type := S -> Outcome A * S.

Definition st_ret {S A} (a : A) : St S A := fun s => (Return a, s).
Definition st_raise {S A} (e : Exc) : St S A := fun s => (Raise e, s).

Definition st_bind {S A B} (m : St S A) (k : A -> St S B) : St S B :=
  fun s =>
    match m s with
    | (Return a, s') => k a s'
    | (Raise e, s') => (Raise e, s')
    end.

Definition st_try {S A} (m : St S A) (h : Exc -> St S A) : St S A :=
  fun s =>
    match m s with
    | (Return a, s') => (Return a, s')
    | (Raise e, s') => h e s'
    end.

Notation "x <~ m ;; k" := (st_bind m (fun x => k))
  (at level 61, m at next level, right associativity).

(** [os.getenv]. *)
Definition Env : Type := string -> option string.

(** A value that [not x] lets through: set and not empty. *)
Definition truthy (x : option string) : option string :=
  match x with
  | Some (String c rest) => Some (String c rest)
  | _ => None
  end.

Module Account.
Record t : Type := mk {
  person_id : string
}.
End Account.

(** The calls [get_api_client] makes to the brokerage library. *)
Inductive LoginCall : Type :=
| CallShioaji (simulation : bool)
| CallLogin (api_key secret_key : string)
| CallListAccounts
| CallActivateCA (ca_path ca_passwd person_id : string).

(** The brokerage library and the remote side at login: what the
    constructor gives and how the three calls answer. *)
Record Brokerage : Type := mkBrokerage {
  on_Shioaji : bool -> Outcome Shioaji;
  on_login : string -> string -> Outcome unit;
  on_list_accounts : Outcome (list Account.t);
  on_activate_ca : string -> string -> string -> Outcome bool
}.

Definition Login (A : Type) : Type := St (list LoginCall) A.

Definition new_Shioaji (sj : Brokerage) (simulation : bool) : Login Shioaji :=
  fun l => (on_Shioaji sj simulation, l ++ [CallShioaji simulation]).

Definition login (sj : Brokerage) (api_key secret_key : string) : Login unit :=
  fun l => (on_login sj api_key secret_key, l ++ [CallLogin api_key secret_key]).

Definition list_accounts (sj : Brokerage) : Login (list Account.t) :=
  fun l => (on_list_accounts sj, l ++ [CallListAccounts]).

Definition activate_ca (sj : Brokerage) (ca_path ca_passwd person_id : string)
  : Login bool :=
  fun l => (on_activate_ca sj ca_path ca_passwd person_id,
            l ++ [CallActivateCA ca_path ca_passwd person_id]).

Definition is_LoginError (e : Exc) : bool :=
  match exc_class e with LoginError => true | _ => false end.

(** The four [except] clauses of [get_api_client]. *)
Definition on_login_error {A} (e : Exc) : Login A :=
  match exc_class e with
  | TokenError =>
      st_raise (new_exc_from LoginError
                  ("Authentication failed: " ++ str_exc e) e)
  | SystemMaintenance =>
      st_raise (new_exc_from LoginError
                  ("System is under maintenance: " ++ str_exc e) e)
  | SjTimeoutError =>
      st_raise (new_exc_from LoginError ("Login timeout: " ++ str_exc e) e)
  | _ =>
      st_raise (new_exc_from LoginError
                  ("Unexpected error during login: " ++ str_exc e) e)
  end.

(** The certificate step of real trading. *)
Definition activate_certificate (env : Env) (sj : Brokerage) : Login unit :=
  match truthy (env "CA_PATH"), truthy (env "CA_PASSWORD") with
  | Some ca_path, Some ca_password =>
      accounts <~ list_accounts sj ;;
      match accounts with
      | [] => st_raise (new_exc LoginError "No accounts found after login")
      | account :: _ =>
          result <~ activate_ca sj ca_path ca_password
                                (Account.person_id account) ;;
          st_ret tt
      end
  | _, _ =>
      st_raise (new_exc LoginError
                  ("Real trading requires CA certificate. "
                   ++ "Please set CA_PATH and CA_PASSWORD environment variables."))
  end.

Definition get_api_client (env : Env) (sj : Brokerage) (simulation : bool)
  : Login Shioaji :=
  match truthy (env "API_KEY"), truthy (env "SECRET_KEY") with
  | Some api_key, Some secret_key =>
      st_try
        (api <~ new_Shioaji sj simulation ;;
         logged <~ login sj api_key secret_key ;;
         done <~ (if negb simulation then activate_certificate env sj
                  else st_ret tt) ;;
         st_ret api)
        on_login_error
  | _, _ =>
      st_raise (new_exc LoginError
                  "API_KEY or SECRET_KEY environment variable not set")
  end.

(* ===================================================================== *)
(** ** The order endpoint (main.py) *)

Module OrderRequest.
Record t : Type := mk {
  action : ACCEPT_ACTIONS;
  quantity : Z;
  symbol : string
}.
End OrderRequest.

Module OrderHistory.
(** A row of the order history with the columns [create_order] sets; the
    key and the creation time are the database's. *)
Record t : Type := mk {
  symbol : string;
  action : ACCEPT_ACTIONS;
  quantity : Z;
  status : string;
  order_result : option string;
  error_message : option string
}.
End OrderHistory.

(** The order history as the endpoint sees it: how [db.add] followed by
    [db.commit] answers for a row, given the rows committed so far. *)
Record Database : Type := mkDatabase {
  on_commit : list OrderHistory.t -> OrderHistory.t -> Outcome unit
}.

(** What surrounds a request: the login calls and the exchange calls made
    so far, and the rows committed to the order history. *)
Record World : Type := mkWorld {
  logins : list LoginCall;
  exchange : Trace;
  history : list OrderHistory.t
}.

(** The body [create_order] returns. *)
Inductive OrderReply : Type :=
| NoAction (message : string)
| Success (order : string).

(** How an endpoint call ends: a body, a raised [HTTPException], or any
    other exception, which the endpoint does not handle. *)
Inductive Ended (A : Type) : Type :=
| Respond (body : A)
| HTTPException (status_code : Z) (detail : string)
| Unhandled (e : Exc).
Arguments Respond {A} body.
Arguments HTTPException {A} status_code detail.
Arguments Unhandled {A} e.

Section Endpoint.

Variable SUPPORTED_FUTURES : list string.
Variable env : Env.
Variable sj : Brokerage.
Variable db : Database.

(** [str(result)]: the text of a trade, or what [str] raises for it. *)
Variable str_trade : Trade.t -> Outcome string.

(** The validator of the request model: always a simulation login. *)
Definition validate_symbol (sym : string) : Login unit :=
  st_try
    (api <~ get_api_client env sj true ;;
     if existsb (String.eqb sym) (get_valid_symbols SUPPORTED_FUTURES api)
     then st_ret tt
     else st_raise (new_exc ValueError ("Symbol " ++ sym ++ " is not valid")))
    (fun e =>
       if is_LoginError e
       then st_raise (new_exc_from ValueError
                        ("Failed to validate symbol: " ++ str_exc e) e)
       else st_raise e).

(** [db.add(order_history); db.commit()]: the row is in the history when
    the commit returns, and is not when it raises. *)
Definition commit (row : OrderHistory.t) (w : World) : Outcome unit * World :=
  match on_commit db (history w) row with
  | Return _ =>
      (Return tt, mkWorld (logins w) (exchange w) (history w ++ [row]))
  | Raise e => (Raise e, w)
  end.

(** The end of each path of [create_order]: the row is written first,
    outside every [try], then the answer is given. *)
Definition record_then {A} (row : OrderHistory.t) (answer : Ended A)
  (w : World) : Ended A * World :=
  match commit row w with
  | (Return _, w') => (answer, w')
  | (Raise e, w') => (Unhandled e, w')
  end.

Definition create_order (order_request : OrderRequest.t) (simulation : bool)
  (w : World) : Ended OrderReply * World :=
  let order_history status order_result error_message :=
    OrderHistory.mk (OrderRequest.symbol order_request)
                    (OrderRequest.action order_request)
                    (OrderRequest.quantity order_request)
                    status order_result error_message in
  match get_api_client env sj simulation (logins w) with
  | (Raise e, l) =>
      if is_LoginError e
      then record_then (order_history "failed" None (Some (str_exc e)))
                       (HTTPException 503 (str_exc e))
                       (mkWorld l (exchange w) (history w))
      else (Unhandled e, mkWorld l (exchange w) (history w))
  | (Return api, l) =>
      match dispatch_order SUPPORTED_FUTURES api
                           (OrderRequest.action order_request)
                           (OrderRequest.symbol order_request)
                           (OrderRequest.quantity order_request)
                           (exchange w) with
      | (Raise e, tr) =>
          if is_OrderError e
          then record_then (order_history "failed" None (Some (str_exc e)))
                           (HTTPException 400 (str_exc e))
                           (mkWorld l tr (history w))
          else (Unhandled e, mkWorld l tr (history w))
      | (Return None, tr) =>
          record_then (order_history "no_action" None None)
                      (Respond
                         (NoAction "No position to exit or invalid action"))
                      (mkWorld l tr (history w))
      | (Return (Some result), tr) =>
          match str_trade result with
          | Raise e => (Unhandled e, mkWorld l tr (history w))
          | Return text =>
              match commit (order_history "success" (Some text) None)
                           (mkWorld l tr (history w)) with
              | (Raise e, w') => (Unhandled e, w')
              | (Return _, w') =>
                  match str_trade result with
                  | Raise e => (Unhandled e, w')
                  | Return order => (Respond (Success order), w')
                  end
              end
          end
      end
  end.

End Endpoint.

(* ===================================================================== *)
(** ** More notions used by the statements *)

(** The position after an order is filled completely. *)
Definition filled_position (p : Z) (o : Order.t) : Z :=
  match Order.action o with
  | Buy => p + Order.quantity o
  | Sell => p - Order.quantity o
  end.

(** The login calls that reach the remote side with the certificate. *)
Definition is_activation (c : LoginCall) : bool :=
  match c with CallActivateCA _ _ _ => true | _ => false end.

(** A setting that names no family: nothing but white space and
    commas. *)
Fixpoint blank (s : string) : Prop :=
  match s with
  | EmptyString => True
  | String c rest => (isspace c = true \/ is_comma c = true) /\ blank rest
  end.

(** Nothing but white space. *)
Fixpoint all_space (s : string) : Prop :=
  match s with
  | EmptyString => True
  | String c rest => isspace c = true /\ all_space rest
  end.

(* ===================================================================== *)
(** ** Sample environment and brokerage *)

Module Demo.

(** Credentials only: enough for simulation. *)
Definition sim_env : Env :=
  fun name =>
    if (name =? "API_KEY")%string then Some "key"
    else if (name =? "SECRET_KEY")%string then Some "secret"
    else None.

(** Credentials and certificate settings. *)
Definition live_env : Env :=
  fun name =>
    if (name =? "CA_PATH")%string then Some "/ca/Sinopac.pfx"
    else if (name =? "CA_PASSWORD")%string then Some "pw"
    else sim_env name.

Definition no_env : Env := fun _ => None.

(** A brokerage that accepts the login and gives the sample session. *)
Definition broker (positions : list Position.t) : Brokerage :=
  mkBrokerage (fun _ => Return (Sample.session positions))
              (fun _ _ => Return tt)
              (Return [Account.mk "A123456789"])
              (fun _ _ _ => Return true).

(** A brokerage whose login is refused. *)
Definition refusing : Brokerage :=
  mkBrokerage (fun _ => Return (Sample.session []))
              (fun _ _ => Raise (new_exc TokenError "bad token"))
              (Return [])
              (fun _ _ _ => Return true).

(** A session that fails to list positions with [e]. *)
Definition blind (e : Exc) : Shioaji :=
  mkShioaji Sample.catalog (Raise e) Sample.accept (fun t => Return t).

(** A brokerage that gives that session. *)
Definition unreadable (e : Exc) : Brokerage :=
  mkBrokerage (fun _ => Return (blind e))
              (fun _ _ => Return tt)
              (Return [Account.mk "A123456789"])
              (fun _ _ _ => Return true).

Definition show (t : Trade.t) : Outcome string := Return "Trade".

(** An order history that takes every row, and one that is down. *)
Definition storing : Database := mkDatabase (fun _ _ => Return tt).
Definition down : Database :=
  mkDatabase (fun _ _ =>
                Raise (new_exc (OtherException "OperationalError")
                         "database is locked")).

Definition start : World := mkWorld [] [] [].

End Demo.

(* ===================================================================== *)
(** ** General facts about the loops *)

Section ListFacts.

Context {A : Type}.

(** A [for]/[return] loop that finds something stopped at the first
    element passing the test. *)
Lemma find_first (f : A -> bool) (l : list A) (x : A) :
  find f l = Some x ->
  exists pre post,
    l = pre ++ x :: post /\ f x = true /\
    forall y, In y pre -> f y = false.
Proof.
  induction l as [| a l IH]; simpl; intros H.
  - discriminate.
  - destruct (f a) eqn:Fa.
    + injection H as <-. exists [], l. repeat split; auto.
      intros y [].
    + destruct (IH H) as (pre & post & -> & Fx & Hpre).
      exists (a :: pre), post. repeat split; auto.
      intros y [<- | Hy]; auto.
Qed.

Lemma find_absent (f : A -> bool) (l : list A) :
  (forall y, In y l -> f y = false) -> find f l = None.
Proof.
  intros H. destruct (find f l) as [x |] eqn:E; auto.
  apply find_some in E. destruct E as [Hin Fx].
  rewrite (H x Hin) in Fx. discriminate.
Qed.

Lemma find_present (f : A -> bool) (l : list A) (y : A) :
  In y l -> f y = true -> exists x, find f l = Some x.
Proof.
  intros Hin Fy. destruct (find f l) as [x |] eqn:E; eauto.
  rewrite (find_none f l E y Hin) in Fy. discriminate.
Qed.

End ListFacts.

(* ===================================================================== *)
(** ** Contract directory *)

Section DirectoryFacts.

Variable SUPPORTED_FUTURES : list string.
Variable api : Shioaji.

Local Notation "'tradable'" :=
  (_get_futures_contracts SUPPORTED_FUTURES api).

(** C8. Symbol lookup: a symbol that no tradable contract carries makes
    [get_contract_from_symbol] raise [ValueError] (the not-found error) and
    so return no contract at all; a symbol that some tradable contract
    carries makes it return the first contract of the tradable list whose
    symbol is exactly that one. *)
Theorem get_contract_from_symbol_first_or_not_found (sym : string) :
  (~ In sym (get_valid_symbols SUPPORTED_FUTURES api) ->
   exists e,
     get_contract_from_symbol SUPPORTED_FUTURES api sym = Raise e /\
     exc_class e = ValueError)
  /\
  (In sym (get_valid_symbols SUPPORTED_FUTURES api) ->
   exists pre contract post,
     tradable = pre ++ contract :: post /\
     symbol contract = sym /\
     (forall c, In c pre -> symbol c <> sym) /\
     get_contract_from_symbol SUPPORTED_FUTURES api sym = Return contract).
Proof.
  unfold get_contract_from_symbol, get_valid_symbols. split; intros H.
  - rewrite find_absent.
    + eexists. split; reflexivity.
    + intros c Hc. apply String.eqb_neq. intros E. apply H.
      rewrite <- E. now apply in_map.
  - apply in_map_iff in H. destruct H as (c & Hsym & Hin).
    destruct (find_present (fun contract => (symbol contract =? sym)%string)
                           tradable c Hin) as (x & Hx).
    { now apply String.eqb_eq. }
    rewrite Hx.
    destruct (find_first _ _ _ Hx) as (pre & post & Hl & Fx & Hpre).
    exists pre, x, post. repeat split; auto.
    + now apply String.eqb_eq.
    + intros c' Hc'. apply String.eqb_neq. now apply Hpre.
Qed.

Lemma is_actual_of_true (contract c : Contract) :
  is_actual_of contract c = true <-> actual_for contract c.
Proof.
  unfold is_actual_of, actual_for.
  rewrite !andb_true_iff, negb_true_iff, !String.eqb_eq, String.eqb_neq.
  tauto.
Qed.

Lemma is_actual_of_false (contract c : Contract) :
  is_actual_of contract c = false <-> ~ actual_for contract c.
Proof.
  rewrite <- is_actual_of_true. destruct (is_actual_of contract c); split;
    congruence.
Qed.

(** C4. Contract resolution: a contract whose code differs from its symbol
    resolves to its own code; a rolling contract (code equal to symbol)
    resolves to the code of an actual contract of the tradable list with
    its category and delivery month when there is one (the first such
    contract in list order), and to its own code when there is none. *)
Theorem resolve_actual_contract_code_cases (contract : Contract) :
  (code contract <> symbol contract ->
   resolve_actual_contract_code SUPPORTED_FUTURES api contract
   = code contract)
  /\
  (code contract = symbol contract ->
   (exists c, In c tradable /\ actual_for contract c) ->
   exists pre actual post,
     tradable = pre ++ actual :: post /\
     actual_for contract actual /\
     (forall c, In c pre -> ~ actual_for contract c) /\
     resolve_actual_contract_code SUPPORTED_FUTURES api contract
     = code actual)
  /\
  (code contract = symbol contract ->
   (forall c, In c tradable -> ~ actual_for contract c) ->
   resolve_actual_contract_code SUPPORTED_FUTURES api contract
   = code contract).
Proof.
  unfold resolve_actual_contract_code. repeat split.
  - intros Hne. apply String.eqb_neq in Hne. now rewrite Hne.
  - intros Heq (c & Hin & Hc). apply String.eqb_eq in Heq. rewrite Heq.
    simpl.
    destruct (find_present (is_actual_of contract) tradable c Hin)
      as (x & Hx).
    { now apply is_actual_of_true. }
    rewrite Hx.
    destruct (find_first _ _ _ Hx) as (pre & post & Hl & Fx & Hpre).
    exists pre, x, post. repeat split; auto.
    + apply is_actual_of_true in Fx. apply Fx.
    + apply is_actual_of_true in Fx. apply Fx.
    + apply is_actual_of_true in Fx. apply Fx.
    + intros c' Hc'. apply is_actual_of_false. now apply Hpre.
  - intros Heq Hnone. apply String.eqb_eq in Heq. rewrite Heq. simpl.
    rewrite find_absent; auto.
    intros c Hc. apply is_actual_of_false. now apply Hnone.
Qed.

End DirectoryFacts.

Lemma get_contract_from_symbol_first_or_not_found_witness :
  (exists e,
     get_contract_from_symbol Sample.families (Sample.session [])
                              "DOES_NOT_EXIST" = Raise e /\
     exc_class e = ValueError)
  /\
  (exists pre contract post,
     _get_futures_contracts Sample.families (Sample.session [])
     = pre ++ contract :: post /\
     symbol contract = "MXF202601" /\
     (forall c, In c pre -> symbol c <> "MXF202601") /\
     get_contract_from_symbol Sample.families (Sample.session [])
                              "MXF202601" = Return contract).
Proof.
  split.
  - apply (proj1 (get_contract_from_symbol_first_or_not_found
                    Sample.families (Sample.session []) "DOES_NOT_EXIST")).
    vm_compute. intros H.
    repeat (destruct H as [H | H]; [discriminate H |]). exact H.
  - apply (proj2 (get_contract_from_symbol_first_or_not_found
                    Sample.families (Sample.session []) "MXF202601")).
    vm_compute. right. left. reflexivity.
Defined.

Lemma resolve_actual_contract_code_cases_witness :
  resolve_actual_contract_code Sample.families (Sample.session [])
                               Sample.MXF202601 = "MXFA6"
  /\
  (exists pre actual post,
     _get_futures_contracts Sample.families (Sample.session [])
     = pre ++ actual :: post /\
     actual_for Sample.MXFR1 actual /\
     (forall c, In c pre -> ~ actual_for Sample.MXFR1 c) /\
     resolve_actual_contract_code Sample.families (Sample.session [])
                                  Sample.MXFR1 = code actual)
  /\
  resolve_actual_contract_code Sample.families (Sample.session [])
                               Sample.TXFR1 = "TXFR1".
Proof.
  pose proof (resolve_actual_contract_code_cases
                Sample.families (Sample.session [])) as R.
  split; [| split].
  - apply (proj1 (R Sample.MXF202601)). simpl. discriminate.
  - apply (proj1 (proj2 (R Sample.MXFR1))).
    + reflexivity.
    + exists Sample.MXF202601. split.
      * vm_compute. right. left. reflexivity.
      * unfold actual_for. simpl. repeat split. discriminate.
  - apply (proj2 (proj2 (R Sample.TXFR1))).
    + reflexivity.
    + intros c Hc (Hcat & _ & Hne).
      vm_compute in Hc.
      repeat (destruct Hc as [<- | Hc]; [simpl in Hcat, Hne |]);
        try discriminate Hcat; try (now apply Hne); exact Hc.
Defined.

(* ===================================================================== *)
(** ** Position reader *)

Section PositionFacts.

Variable SUPPORTED_FUTURES : list string.
Variable api : Shioaji.
Variable contract : Contract.

Local Notation "'actual_code'" :=
  (resolve_actual_contract_code SUPPORTED_FUTURES api contract).

(** One read of the position list, whatever the session answers. *)
Lemma get_current_position_run (tr : Trace) :
  get_current_position SUPPORTED_FUTURES api contract tr
  = (match on_list_positions api with
     | Return positions => scan_positions actual_code positions
     | Raise e => Raise e
     end, tr ++ [CallListPositions]).
Proof.
  unfold get_current_position, bind, list_positions, lift.
  destruct (on_list_positions api); reflexivity.
Qed.

Lemma scan_positions_skip (ac : string) (pre rest : list Position.t) :
  (forall x, In x pre -> Position.code x <> ac) ->
  scan_positions ac (pre ++ rest) = scan_positions ac rest.
Proof.
  induction pre as [| a pre IH]; simpl; intros Hpre; auto.
  assert (E : (ac =? Position.code a)%string = false).
  { apply String.eqb_neq. intros E. now apply (Hpre a (or_introl eq_refl)). }
  rewrite E. apply IH. intros x Hx. apply Hpre. now right.
Qed.

Lemma scan_positions_none (ac : string) (positions : list Position.t) :
  (forall x, In x positions -> Position.code x <> ac) ->
  scan_positions ac positions = Return None.
Proof.
  intros H. rewrite <- (app_nil_r positions).
  now rewrite scan_positions_skip.
Qed.

(** C5. Direction semantics of the position reader: with the position list
    the exchange returned, the first entry whose code is the resolved code
    gives [+quantity] when its direction is Buy and [-quantity] when it is
    Sell; any other direction makes the reader raise [ValueError] (no
    value is made up for it); when no entry has the resolved code the
    reader returns [None]. *)
Theorem get_current_position_direction
  (positions : list Position.t) (tr : Trace) :
  on_list_positions api = Return positions ->
  (forall pre p post,
     positions = pre ++ p :: post ->
     (forall x, In x pre -> Position.code x <> actual_code) ->
     Position.code p = actual_code ->
     match Position.direction p with
     | DirAction Buy =>
         run (get_current_position SUPPORTED_FUTURES api contract) tr
         = Return (Some (Position.quantity p))
     | DirAction Sell =>
         run (get_current_position SUPPORTED_FUTURES api contract) tr
         = Return (Some (- Position.quantity p))
     | DirOther _ =>
         exists e,
           run (get_current_position SUPPORTED_FUTURES api contract) tr
           = Raise e /\ exc_class e = ValueError
     end)
  /\
  ((forall x, In x positions -> Position.code x <> actual_code) ->
   run (get_current_position SUPPORTED_FUTURES api contract) tr
   = Return None).
Proof.
  intros Hl. unfold run. rewrite get_current_position_run, Hl. simpl.
  split.
  - intros pre p post -> Hpre Hp.
    rewrite scan_positions_skip by assumption. simpl.
    rewrite <- Hp, String.eqb_refl.
    destruct (Position.direction p) as [[|] | raw]; try reflexivity.
    eexists. split; reflexivity.
  - apply scan_positions_none.
Qed.

(** C9. First match, no aggregation: when two or more entries of the
    position list carry the resolved code, the reader returns the signed
    quantity of the first of them in list order, whatever the later ones
    hold; whenever the net quantity over all entries of that code differs
    from it, the reader does not return that net quantity. *)
Theorem get_current_position_first_match
  (pre mid post : list Position.t) (first second : Position.t) (v : Z)
  (tr : Trace) :
  on_list_positions api = Return (pre ++ first :: mid ++ second :: post) ->
  (forall x, In x pre -> Position.code x <> actual_code) ->
  Position.code first = actual_code ->
  Position.code second = actual_code ->
  signed_quantity first = Some v ->
  run (get_current_position SUPPORTED_FUTURES api contract) tr
  = Return (Some v)
  /\
  (net_quantity actual_code (pre ++ first :: mid ++ second :: post) <> v ->
   run (get_current_position SUPPORTED_FUTURES api contract) tr
   <> Return (Some (net_quantity actual_code
                       (pre ++ first :: mid ++ second :: post)))).
Proof.
  intros Hl Hpre Hfirst _ Hv.
  assert (R : run (get_current_position SUPPORTED_FUTURES api contract) tr
              = Return (Some v)).
  { unfold run. rewrite get_current_position_run, Hl. simpl.
    rewrite scan_positions_skip by assumption. simpl.
    rewrite <- Hfirst, String.eqb_refl.
    unfold signed_quantity in Hv.
    destruct (Position.direction first) as [[|] | raw];
      now inversion Hv. }
  split; [exact R |].
  intros Hnet. rewrite R. intros E. apply Hnet. now inversion E.
Qed.

End PositionFacts.

Lemma get_current_position_direction_witness :
  run (get_current_position Sample.families
         (Sample.session [Sample.long "TXFA6" 9; Sample.short "MXFA6" 3])
         Sample.MXFR1) []
  = Return (Some (- 3))
  /\
  run (get_current_position Sample.families
         (Sample.session [Sample.long "TXFA6" 9]) Sample.MXFR1) []
  = Return None.
Proof.
  split.
  - exact (proj1 (get_current_position_direction Sample.families
                    (Sample.session
                       [Sample.long "TXFA6" 9; Sample.short "MXFA6" 3])
                    Sample.MXFR1 _ [] eq_refl)
             [Sample.long "TXFA6" 9] (Sample.short "MXFA6" 3) [] eq_refl
             ltac:(vm_compute; intros x [<- | []]; simpl; discriminate)
             eq_refl).
  - apply (proj2 (get_current_position_direction Sample.families
                    (Sample.session [Sample.long "TXFA6" 9])
                    Sample.MXFR1 _ [] eq_refl)).
    vm_compute. intros x [<- | []]. simpl. discriminate.
Defined.

Lemma get_current_position_first_match_witness :
  run (get_current_position Sample.families
         (Sample.session [Sample.long "MXFA6" 2; Sample.long "MXFA6" 3])
         Sample.MXFR1) []
  = Return (Some 2)
  /\
  run (get_current_position Sample.families
         (Sample.session [Sample.long "MXFA6" 2; Sample.long "MXFA6" 3])
         Sample.MXFR1) []
  <> Return (Some 5).
Proof.
  pose proof (get_current_position_first_match Sample.families
                (Sample.session
                   [Sample.long "MXFA6" 2; Sample.long "MXFA6" 3])
                Sample.MXFR1 [] [] [] (Sample.long "MXFA6" 2)
                (Sample.long "MXFA6" 3) 2 [] eq_refl) as H.
  destruct H as [H1 H2]; try reflexivity.
  - intros x [].
  - split; [exact H1 |]. apply H2. vm_compute. discriminate.
Defined.

(* ===================================================================== *)
(** ** Order placement *)

Lemma submitted_app (a b : Trace) :
  submitted (a ++ b) = submitted a ++ submitted b.
Proof. unfold submitted. apply flat_map_app. Qed.

Lemma on_submit_error_run {A} (e : Exc) (tr : Trace) :
  exists e', @on_submit_error A e tr = (Raise e', tr) /\ wraps e' e.
Proof.
  destruct e as [c m ca]. unfold on_submit_error, raise, wraps.
  cbv [exc_class].
  destruct c; eexists; (split; [reflexivity |]);
    cbv [new_exc_from str_exc exc_class exc_cause];
    (split; [reflexivity | split; [reflexivity | eexists; reflexivity]]).
Qed.

(** The submission step: one call to the exchange, and an answer that is
    the trade or an [OrderError] raised from what the exchange raised. *)
Lemma submit_run (api : Shioaji) (c : Contract) (o : Order.t) (tr : Trace) :
  calls (try_except (place_order api c o) on_submit_error) tr
  = tr ++ [CallPlaceOrder c o]
  /\
  match on_place_order api c o with
  | Return t =>
      run (try_except (place_order api c o) on_submit_error) tr = Return t
  | Raise e =>
      exists e',
        run (try_except (place_order api c o) on_submit_error) tr = Raise e'
        /\ wraps e' e
  end.
Proof.
  unfold calls, run, try_except, place_order.
  destruct (on_place_order api c o) as [t | e]; simpl; auto.
  destruct (@on_submit_error_run Trade.t e (tr ++ [CallPlaceOrder c o]))
    as (e' & -> & W).
  simpl. eauto.
Qed.

(** The order constructor: it builds the order of a positive quantity and
    raises for any other, with an exception that no clause of the engine
    names. *)
Lemma api_Order_positive (action : Action) (n : Z) :
  0 < n -> api_Order action n = Return (market_order action n).
Proof.
  intros H. unfold api_Order. rewrite Z.gtb_ltb.
  destruct (Z.ltb_spec 0 n); [reflexivity | lia].
Qed.

Lemma api_Order_rejects (action : Action) (n : Z) :
  n <= 0 ->
  exists e,
    api_Order action n = Raise e /\
    exc_class e = OtherException "ValidationError".
Proof.
  intros H. unfold api_Order. rewrite Z.gtb_ltb.
  destruct (Z.ltb_spec 0 n); [lia |]. eexists. split; reflexivity.
Qed.

Section PlacementFacts.

Variable SUPPORTED_FUTURES : list string.
Variable api : Shioaji.

Lemma get_current_position_any_trace (contract : Contract)
  (tr tr' : Trace) :
  run (get_current_position SUPPORTED_FUTURES api contract) tr
  = run (get_current_position SUPPORTED_FUTURES api contract) tr'.
Proof. unfold run. now rewrite !get_current_position_run. Qed.

Lemma get_current_position_calls (contract : Contract) (tr : Trace) :
  calls (get_current_position SUPPORTED_FUTURES api contract) tr
  = tr ++ [CallListPositions].
Proof. unfold calls. now rewrite get_current_position_run. Qed.

(** Once the symbol is found and the position read, an entry order is the
    construction of one order of the adjusted quantity and its
    submission. *)
Lemma place_entry_order_built (sym : string) (quantity : Z) (action : Action)
  (contract : Contract) (pos : option Z) (tr : Trace) :
  get_contract_from_symbol SUPPORTED_FUTURES api sym = Return contract ->
  run (get_current_position SUPPORTED_FUTURES api contract) tr
  = Return pos ->
  place_entry_order SUPPORTED_FUTURES api sym quantity action tr
  = match api_Order action (entry_quantity action quantity (or_0 pos)) with
    | Return order =>
        try_except (place_order api contract order) on_submit_error
                   (tr ++ [CallListPositions])
    | Raise e => (Raise e, tr ++ [CallListPositions])
    end.
Proof.
  intros Hc Hp. unfold place_entry_order, bind at 1, try_except at 1, lift.
  rewrite Hc. cbv beta iota. unfold bind at 1, try_except at 1, bind at 1.
  pose proof (get_current_position_calls contract tr) as Ht.
  unfold run in Hp. unfold calls in Ht.
  destruct (get_current_position SUPPORTED_FUTURES api contract tr)
    as [o tr'].
  simpl in Hp, Ht. subst o tr'. unfold ret at 1. cbv beta iota.
  unfold bind.
  now destruct (api_Order action (entry_quantity action quantity (or_0 pos))).
Qed.

Lemma place_entry_order_run (sym : string) (quantity : Z) (action : Action)
  (contract : Contract) (pos : option Z) (tr : Trace) :
  get_contract_from_symbol SUPPORTED_FUTURES api sym = Return contract ->
  run (get_current_position SUPPORTED_FUTURES api contract) tr
  = Return pos ->
  0 < entry_quantity action quantity (or_0 pos) ->
  place_entry_order SUPPORTED_FUTURES api sym quantity action tr
  = try_except
      (place_order api contract
         (market_order action (entry_quantity action quantity (or_0 pos))))
      on_submit_error (tr ++ [CallListPositions]).
Proof.
  intros Hc Hp Hn. rewrite (place_entry_order_built _ _ _ _ _ _ Hc Hp).
  now rewrite (api_Order_positive _ _ Hn).
Qed.

(** The same for an exit order: nothing at all, or the construction of one
    order and its submission. *)
Lemma place_exit_order_run (sym : string) (position_direction : Action)
  (contract : Contract) (pos : option Z) (tr : Trace) :
  get_contract_from_symbol SUPPORTED_FUTURES api sym = Return contract ->
  run (get_current_position SUPPORTED_FUTURES api contract) tr
  = Return pos ->
  place_exit_order SUPPORTED_FUTURES api sym position_direction tr
  = match exit_order position_direction (or_0 pos) with
    | None => (Return None, tr ++ [CallListPositions])
    | Some (Return order) =>
        try_except (result <- place_order api contract order ;;
                    ret (Some result))
                   on_submit_error (tr ++ [CallListPositions])
    | Some (Raise e) => (Raise e, tr ++ [CallListPositions])
    end.
Proof.
  intros Hc Hp. unfold place_exit_order, bind at 1, try_except at 1, lift.
  rewrite Hc. cbv beta iota. unfold bind at 1, try_except at 1, bind at 1.
  pose proof (get_current_position_calls contract tr) as Ht.
  unfold run in Hp. unfold calls in Ht.
  destruct (get_current_position SUPPORTED_FUTURES api contract tr)
    as [o tr'].
  simpl in Hp, Ht. subst o tr'. cbv beta iota. unfold ret at 1.
  cbv beta iota.
  destruct (exit_order position_direction (or_0 pos)) as [[order | e] |];
    reflexivity.
Qed.

Lemma submit_exit_run (c : Contract) (o : Order.t) (tr : Trace) :
  calls (try_except (result <- place_order api c o ;; ret (Some result))
                    on_submit_error) tr
  = tr ++ [CallPlaceOrder c o]
  /\
  match on_place_order api c o with
  | Return t =>
      run (try_except (result <- place_order api c o ;; ret (Some result))
                      on_submit_error) tr = Return (Some t)
  | Raise e =>
      exists e',
        run (try_except (result <- place_order api c o ;; ret (Some result))
                        on_submit_error) tr = Raise e'
        /\ wraps e' e
  end.
Proof.
  unfold calls, run, try_except, bind, place_order, ret.
  destruct (on_place_order api c o) as [t | e]; simpl; auto.
  destruct (@on_submit_error_run (option Trade.t) e
              (tr ++ [CallPlaceOrder c o])) as (e' & -> & W).
  simpl. eauto.
Qed.

End PlacementFacts.

Lemma calls_bind_ret {A B} (m : Py A) (f : A -> B) (tr : Trace) :
  calls (x <- m ;; ret (f x)) tr = calls m tr.
Proof.
  unfold calls, bind, ret. now destruct (m tr) as [[a | e] tr'].
Qed.

Lemma entry_quantity_cases (action : Action) (q p : Z) :
  entry_quantity action q p
  = match action with
    | Buy => if p <? 0 then q + Z.abs p else q
    | Sell => if 0 <? p then q + Z.abs p else q
    end.
Proof.
  unfold entry_quantity. rewrite Z.gtb_ltb.
  destruct action; simpl.
  - destruct (Z.ltb_spec p 0); [lia | reflexivity].
  - destruct (Z.ltb_spec 0 p); [lia | reflexivity].
Qed.

Lemma entry_quantity_at_least (action : Action) (q p : Z) :
  q <= entry_quantity action q p.
Proof.
  rewrite entry_quantity_cases.
  destruct action; [destruct (p <? 0) | destruct (0 <? p)]; lia.
Qed.

Lemma exit_order_cases (direction : Action) (p : Z) :
  exit_order direction p
  = match direction with
    | Buy => if 0 <? p then Some (Return (market_order Sell p)) else None
    | Sell =>
        if p <? 0 then Some (Return (market_order Buy (Z.abs p))) else None
    end.
Proof.
  unfold exit_order. rewrite Z.gtb_ltb.
  destruct direction; simpl.
  - destruct (Z.ltb_spec 0 p); [| reflexivity].
    now rewrite api_Order_positive.
  - destruct (Z.ltb_spec p 0); [| reflexivity].
    rewrite api_Order_positive by lia. now rewrite Z.abs_neq by lia.
Qed.

Section EntryOrders.

Variable SUPPORTED_FUTURES : list string.
Variable api : Shioaji.

Lemma submitted_after_entry (sym : string) (q : Z) (action : Action)
  (contract : Contract) (pos : option Z) (tr : Trace) :
  0 < q ->
  get_contract_from_symbol SUPPORTED_FUTURES api sym = Return contract ->
  run (get_current_position SUPPORTED_FUTURES api contract) tr
  = Return pos ->
  submitted (calls (place_entry_order SUPPORTED_FUTURES api sym q action) tr)
  = submitted tr
    ++ [(contract,
         market_order action (entry_quantity action q (or_0 pos)))].
Proof.
  intros Hq Hc Hp. unfold calls.
  pose proof (entry_quantity_at_least action q (or_0 pos)) as Hn.
  rewrite (place_entry_order_run _ _ _ _ _ _ _ _ Hc Hp) by lia.
  destruct (submit_run api contract
              (market_order action (entry_quantity action q (or_0 pos)))
              (tr ++ [CallListPositions])) as [Ht _].
  unfold calls in Ht. rewrite Ht, !submitted_app. simpl.
  now rewrite app_nil_r.
Qed.

(** C1. Entry sizing: for a requested quantity [q > 0] on a symbol that is
    found, with [p] the current position read (zero when absent), a long
    entry submits exactly one order, whose action is Buy and whose
    quantity is [q + |p|] when [p < 0] and [q] otherwise; a short entry
    submits exactly one order, whose action is Sell and whose quantity is
    [q + |p|] when [p > 0] and [q] otherwise. *)
Theorem entry_order_sizing (sym : string) (q : Z) (contract : Contract)
  (pos : option Z) (tr : Trace) :
  0 < q ->
  get_contract_from_symbol SUPPORTED_FUTURES api sym = Return contract ->
  run (get_current_position SUPPORTED_FUTURES api contract) tr
  = Return pos ->
  (exists order,
     submitted (calls (dispatch_order SUPPORTED_FUTURES api long_entry sym q)
                      tr)
     = submitted tr ++ [(contract, order)] /\
     Order.action order = Buy /\
     (or_0 pos < 0 -> Order.quantity order = q + Z.abs (or_0 pos)) /\
     (0 <= or_0 pos -> Order.quantity order = q))
  /\
  (exists order,
     submitted (calls (dispatch_order SUPPORTED_FUTURES api short_entry sym q)
                      tr)
     = submitted tr ++ [(contract, order)] /\
     Order.action order = Sell /\
     (0 < or_0 pos -> Order.quantity order = q + Z.abs (or_0 pos)) /\
     (or_0 pos <= 0 -> Order.quantity order = q)).
Proof.
  intros Hq Hc Hp. unfold dispatch_order. rewrite !calls_bind_ret.
  rewrite !(submitted_after_entry _ _ _ _ _ _ Hq Hc Hp).
  split; eexists; (split; [reflexivity |]); (split; [reflexivity |]);
    simpl; rewrite entry_quantity_cases.
  - destruct (Z.ltb_spec (or_0 pos) 0); split; intros; lia || reflexivity.
  - destruct (Z.ltb_spec 0 (or_0 pos)); split; intros; lia || reflexivity.
Qed.

(** C10. Lower bound of the submitted entry quantity: for a requested
    quantity [q > 0], whatever the session answers, an entry order call
    submits at most one order, and the quantity of a submitted order is at
    least [q], hence strictly positive; when the symbol is found and the
    position read as [p], one order is submitted and its quantity is
    exactly [q + |p|] when [p] is opposite to the entry (a Buy with
    [p < 0], a Sell with [p > 0]) and exactly [q] otherwise. *)
Theorem entry_order_quantity_lower_bound (sym : string) (q : Z)
  (action : Action) (tr : Trace) :
  0 < q ->
  exists news,
    submitted (calls (place_entry_order SUPPORTED_FUTURES api sym q action)
                     tr)
    = submitted tr ++ news /\
    (List.length news <= 1)%nat /\
    Forall (fun co =>
              q <= Order.quantity (snd co) /\
              0 < Order.quantity (snd co))
           news /\
    (forall contract pos,
       get_contract_from_symbol SUPPORTED_FUTURES api sym = Return contract ->
       run (get_current_position SUPPORTED_FUTURES api contract) tr
       = Return pos ->
       exists order,
         news = [(contract, order)] /\
         ((action = Buy /\ or_0 pos < 0) \/ (action = Sell /\ 0 < or_0 pos) ->
          Order.quantity order = q + Z.abs (or_0 pos)) /\
         (~ ((action = Buy /\ or_0 pos < 0) \/
             (action = Sell /\ 0 < or_0 pos)) ->
          Order.quantity order = q)).
Proof.
  intros Hq.
  destruct (get_contract_from_symbol SUPPORTED_FUTURES api sym)
    as [contract | e] eqn:Hc.
  - destruct (run (get_current_position SUPPORTED_FUTURES api contract) tr)
      as [pos | e] eqn:Hp.
    + rewrite (submitted_after_entry _ _ _ _ _ _ Hq Hc Hp).
      pose proof (entry_quantity_at_least action q (or_0 pos)) as Hn.
      eexists. split; [reflexivity |]. split; [simpl; lia |]. split.
      * constructor; [| constructor]. simpl. lia.
      * intros c' pos' [= <-] Hp'. rewrite Hp in Hp'. injection Hp' as <-.
        eexists. split; [reflexivity |]. simpl.
        rewrite entry_quantity_cases.
        destruct action;
          [destruct (Z.ltb_spec (or_0 pos) 0) as [Hlt | Hge]
          | destruct (Z.ltb_spec 0 (or_0 pos)) as [Hlt | Hge]];
          (split; intros Hop; [try reflexivity | try reflexivity]);
          try (exfalso; apply Hop; auto; fail);
          destruct Hop as [[H1 H2] | [H1 H2]]; try discriminate; lia.
    + exists []. split; [| split; [simpl; lia | split; [constructor |]]].
      * unfold calls, place_entry_order, bind at 1, try_except at 1, lift.
        rewrite Hc. cbv beta iota.
        unfold bind at 1, try_except at 1, bind at 1.
        pose proof (get_current_position_calls SUPPORTED_FUTURES api
                      contract tr) as Ht.
        unfold run in Hp. unfold calls in Ht.
        destruct (get_current_position SUPPORTED_FUTURES api contract tr)
          as [o tr'].
        simpl in Hp, Ht. subst o tr'. cbv beta iota.
        unfold on_position_error, raise.
        destruct (is_account_error e); simpl;
          rewrite submitted_app; reflexivity.
      * intros c' pos' [= <-] Hp'. rewrite Hp in Hp'. discriminate.
  - exists []. split; [| split; [simpl; lia | split; [constructor |]]].
    + unfold calls, place_entry_order, bind at 1, try_except at 1, lift.
      rewrite Hc. cbv beta iota.
      unfold on_lookup_error, raise.
      destruct (exc_class e); simpl; now rewrite app_nil_r.
    + intros c' pos' Hc'. discriminate.
Qed.

End EntryOrders.

Section ExitOrdersAndFailures.

Variable SUPPORTED_FUTURES : list string.
Variable api : Shioaji.

Lemma run_place_entry_order (sym : string) (q : Z) (action : Action)
  (contract : Contract) (pos : option Z) (tr : Trace) :
  0 < q ->
  get_contract_from_symbol SUPPORTED_FUTURES api sym = Return contract ->
  run (get_current_position SUPPORTED_FUTURES api contract) tr
  = Return pos ->
  run (place_entry_order SUPPORTED_FUTURES api sym q action) tr
  = run (try_except
           (place_order api contract
              (market_order action (entry_quantity action q (or_0 pos))))
           on_submit_error) (tr ++ [CallListPositions]).
Proof.
  intros Hq Hc Hp. unfold run.
  pose proof (entry_quantity_at_least action q (or_0 pos)) as Hn.
  now rewrite (place_entry_order_run _ _ _ _ _ _ _ _ Hc Hp) by lia.
Qed.

(** An exit request that finds nothing to close: no order, one read. *)
Lemma place_exit_order_no_action (sym : string) (direction : Action)
  (contract : Contract) (pos : option Z) (tr : Trace) :
  get_contract_from_symbol SUPPORTED_FUTURES api sym = Return contract ->
  run (get_current_position SUPPORTED_FUTURES api contract) tr
  = Return pos ->
  exit_order direction (or_0 pos) = None ->
  place_exit_order SUPPORTED_FUTURES api sym direction tr
  = (Return None, tr ++ [CallListPositions]).
Proof.
  intros Hc Hp Hx.
  now rewrite (place_exit_order_run _ _ _ _ _ _ _ Hc Hp), Hx.
Qed.

Lemma submitted_after_exit (sym : string) (direction : Action)
  (contract : Contract) (pos : option Z) (order : Order.t) (tr : Trace) :
  get_contract_from_symbol SUPPORTED_FUTURES api sym = Return contract ->
  run (get_current_position SUPPORTED_FUTURES api contract) tr
  = Return pos ->
  exit_order direction (or_0 pos) = Some (Return order) ->
  submitted (calls (place_exit_order SUPPORTED_FUTURES api sym direction) tr)
  = submitted tr ++ [(contract, order)].
Proof.
  intros Hc Hp Hx. unfold calls.
  rewrite (place_exit_order_run _ _ _ _ _ _ _ Hc Hp), Hx.
  destruct (submit_exit_run api contract order (tr ++ [CallListPositions]))
    as [Ht _].
  unfold calls in Ht. rewrite Ht, !submitted_app. simpl.
  now rewrite app_nil_r.
Qed.

Lemma exit_requests_flat (sym : string) (contract : Contract)
  (pos : option Z) (directions : list Action) :
  get_contract_from_symbol SUPPORTED_FUTURES api sym = Return contract ->
  or_0 pos = 0 ->
  forall tr,
    run (get_current_position SUPPORTED_FUTURES api contract) tr
    = Return pos ->
    run (exit_requests SUPPORTED_FUTURES api sym directions) tr
    = Return (map (fun _ => None) directions) /\
    submitted (calls (exit_requests SUPPORTED_FUTURES api sym directions) tr)
    = submitted tr.
Proof.
  intros Hc H0.
  induction directions as [| d rest IH]; intros tr Hp.
  - split; reflexivity.
  - assert (Hx : exit_order d (or_0 pos) = None).
    { rewrite exit_order_cases, H0. now destruct d. }
    pose proof (place_exit_order_no_action _ _ _ _ _ Hc Hp Hx) as Hrun.
    assert (Hp' : run (get_current_position SUPPORTED_FUTURES api contract)
                      (tr ++ [CallListPositions]) = Return pos).
    { now rewrite (get_current_position_any_trace _ _ _ _ tr). }
    destruct (IH _ Hp') as [IHr IHs].
    unfold run, calls in *. simpl exit_requests. unfold bind, ret.
    rewrite Hrun.
    destruct (exit_requests SUPPORTED_FUTURES api sym rest
                (tr ++ [CallListPositions])) as [o tr'].
    simpl in IHr, IHs. subst o. simpl. split; [reflexivity |].
    rewrite IHs, submitted_app. simpl. now rewrite app_nil_r.
Qed.

(** C2. Exit sizing and no action: on a symbol that is found, with [p] the
    current position read (zero when absent), a long exit submits exactly
    one order, whose action is Sell and whose quantity is [p], when
    [p > 0], and a short exit submits exactly one order, whose action is
    Buy and whose quantity is [|p|], when [p < 0]; in every other case the
    call returns [None] and submits nothing; and any sequence of exit
    requests against a flat position returns [None] each time and submits
    nothing. *)
Theorem exit_order_sizing (sym : string) (q : Z) (contract : Contract)
  (pos : option Z) (tr : Trace) :
  get_contract_from_symbol SUPPORTED_FUTURES api sym = Return contract ->
  run (get_current_position SUPPORTED_FUTURES api contract) tr
  = Return pos ->
  (0 < or_0 pos ->
   exists order,
     submitted (calls (dispatch_order SUPPORTED_FUTURES api long_exit sym q)
                      tr)
     = submitted tr ++ [(contract, order)] /\
     Order.action order = Sell /\
     Order.quantity order = or_0 pos)
  /\
  (or_0 pos < 0 ->
   exists order,
     submitted (calls (dispatch_order SUPPORTED_FUTURES api short_exit sym q)
                      tr)
     = submitted tr ++ [(contract, order)] /\
     Order.action order = Buy /\
     Order.quantity order = Z.abs (or_0 pos))
  /\
  (or_0 pos <= 0 ->
   run (dispatch_order SUPPORTED_FUTURES api long_exit sym q) tr
   = Return None /\
   submitted (calls (dispatch_order SUPPORTED_FUTURES api long_exit sym q) tr)
   = submitted tr)
  /\
  (0 <= or_0 pos ->
   run (dispatch_order SUPPORTED_FUTURES api short_exit sym q) tr
   = Return None /\
   submitted (calls (dispatch_order SUPPORTED_FUTURES api short_exit sym q)
                    tr)
   = submitted tr)
  /\
  (or_0 pos = 0 ->
   forall directions,
     run (exit_requests SUPPORTED_FUTURES api sym directions) tr
     = Return (map (fun _ => None) directions) /\
     submitted (calls (exit_requests SUPPORTED_FUTURES api sym directions)
                      tr)
     = submitted tr).
Proof.
  intros Hc Hp. unfold dispatch_order.
  split; [| split; [| split; [| split]]].
  - intros H. exists (market_order Sell (or_0 pos)).
    split; [| split; reflexivity].
    apply (submitted_after_exit _ _ _ _ _ _ Hc Hp).
    rewrite exit_order_cases.
    destruct (Z.ltb_spec 0 (or_0 pos)); [reflexivity | lia].
  - intros H. exists (market_order Buy (Z.abs (or_0 pos))).
    split; [| split; reflexivity].
    apply (submitted_after_exit _ _ _ _ _ _ Hc Hp).
    rewrite exit_order_cases.
    destruct (Z.ltb_spec (or_0 pos) 0); [reflexivity | lia].
  - intros H. unfold run, calls.
    rewrite (place_exit_order_no_action _ _ _ _ _ Hc Hp).
    + simpl. split; [reflexivity |].
      rewrite submitted_app. simpl. now rewrite app_nil_r.
    + rewrite exit_order_cases.
      destruct (Z.ltb_spec 0 (or_0 pos)); [lia | reflexivity].
  - intros H. unfold run, calls.
    rewrite (place_exit_order_no_action _ _ _ _ _ Hc Hp).
    + simpl. split; [reflexivity |].
      rewrite submitted_app. simpl. now rewrite app_nil_r.
    + rewrite exit_order_cases.
      destruct (Z.ltb_spec (or_0 pos) 0); [lia | reflexivity].
  - intros H directions.
    now apply (exit_requests_flat sym contract pos directions Hc H).
Qed.

(** C7. Submission failures: once the symbol is found and the position
    read, whatever the exchange raises when the order is submitted comes
    out of [place_entry_order] (for a requested quantity [q > 0]) and of
    [place_exit_order] as an [OrderError] whose cause is that exception
    and whose message ends with its text; and from that point on nothing
    but an [OrderError] is ever raised to the caller. *)
Theorem submission_failure_is_OrderError (sym : string)
  (contract : Contract) (pos : option Z) (tr : Trace) :
  get_contract_from_symbol SUPPORTED_FUTURES api sym = Return contract ->
  run (get_current_position SUPPORTED_FUTURES api contract) tr
  = Return pos ->
  (forall q action,
     0 < q ->
     only_OrderError
       (run (place_entry_order SUPPORTED_FUTURES api sym q action) tr) /\
     forall e,
       on_place_order api contract
         (market_order action (entry_quantity action q (or_0 pos)))
       = Raise e ->
       exists e',
         run (place_entry_order SUPPORTED_FUTURES api sym q action) tr
         = Raise e' /\ wraps e' e)
  /\
  (forall direction,
     only_OrderError
       (run (place_exit_order SUPPORTED_FUTURES api sym direction) tr) /\
     forall order e,
       exit_order direction (or_0 pos) = Some (Return order) ->
       on_place_order api contract order = Raise e ->
       exists e',
         run (place_exit_order SUPPORTED_FUTURES api sym direction) tr
         = Raise e' /\ wraps e' e).
Proof.
  intros Hc Hp. split.
  - intros q action Hq.
    rewrite (run_place_entry_order _ _ _ _ _ _ Hq Hc Hp).
    destruct (submit_run api contract
                (market_order action (entry_quantity action q (or_0 pos)))
                (tr ++ [CallListPositions])) as [_ H].
    destruct (on_place_order api contract
                (market_order action (entry_quantity action q (or_0 pos))))
      as [t | e0].
    + rewrite H. split; [exact I | discriminate].
    + destruct H as (e' & -> & W). split.
      * apply W.
      * intros e [= <-]. eauto.
  - intros direction. unfold run.
    rewrite (place_exit_order_run _ _ _ _ _ _ _ Hc Hp).
    pose proof (exit_order_cases direction (or_0 pos)) as Hcases.
    destruct (exit_order direction (or_0 pos)) as [[order | e1] |].
    + destruct (submit_exit_run api contract order
                  (tr ++ [CallListPositions])) as [_ H].
      unfold run in H.
      destruct (on_place_order api contract order) as [t | e0] eqn:Ho.
      * rewrite H. split; [exact I |].
        intros o e [= <-] He. rewrite Ho in He. discriminate.
      * destruct H as (e' & -> & W). split.
        -- apply W.
        -- intros o e [= <-] He. rewrite Ho in He.
           injection He as <-. eauto.
    + exfalso.
      destruct direction;
        [destruct (0 <? or_0 pos) | destruct (or_0 pos <? 0)];
        discriminate.
    + split; [exact I | discriminate].
Qed.

End ExitOrdersAndFailures.

Lemma entry_order_sizing_witness :
  (exists order,
     submitted
       (calls (dispatch_order Sample.families
                 (Sample.session [Sample.short "MXFA6" 3])
                 long_entry "MXFR1" 5) [])
     = [(Sample.MXFR1, order)] /\
     Order.action order = Buy /\ Order.quantity order = 8)
  /\
  (exists order,
     submitted
       (calls (dispatch_order Sample.families
                 (Sample.session [Sample.short "MXFA6" 3])
                 short_entry "MXFR1" 5) [])
     = [(Sample.MXFR1, order)] /\
     Order.action order = Sell /\ Order.quantity order = 5).
Proof.
  destruct (entry_order_sizing Sample.families
              (Sample.session [Sample.short "MXFA6" 3])
              "MXFR1" 5 Sample.MXFR1 (Some (- 3)) []
              ltac:(lia) eq_refl eq_refl)
    as [(o1 & E1 & A1 & Hneg & _) (o2 & E2 & A2 & _ & Hle)].
  split.
  - exists o1. split; [exact E1 |]. split; [exact A1 |].
    apply Hneg. vm_compute. reflexivity.
  - exists o2. split; [exact E2 |]. split; [exact A2 |].
    apply Hle. vm_compute. discriminate.
Defined.

Lemma entry_order_quantity_lower_bound_witness :
  exists news,
    submitted
      (calls (place_entry_order Sample.families
                (Sample.session [Sample.short "MXFA6" 3]) "MXFR1" 5 Buy) [])
    = news /\
    Forall (fun co => 5 <= Order.quantity (snd co) /\
                      0 < Order.quantity (snd co)) news /\
    exists order,
      news = [(Sample.MXFR1, order)] /\ Order.quantity order = 8.
Proof.
  destruct (entry_order_quantity_lower_bound Sample.families
              (Sample.session [Sample.short "MXFA6" 3]) "MXFR1" 5 Buy []
              ltac:(lia))
    as (news & E & _ & Hall & Hexact).
  exists news. split; [exact E |]. split; [exact Hall |].
  destruct (Hexact Sample.MXFR1 (Some (- 3)) eq_refl eq_refl)
    as (order & En & Hrev & _).
  exists order. split; [exact En |].
  apply Hrev. left. split; [reflexivity |]. vm_compute. reflexivity.
Defined.

Lemma exit_order_sizing_witness :
  (exists order,
     submitted
       (calls (dispatch_order Sample.families
                 (Sample.session [Sample.long "MXFA6" 7])
                 long_exit "MXF202601" 1) [])
     = [(Sample.MXF202601, order)] /\
     Order.action order = Sell /\ Order.quantity order = 7)
  /\
  (exists order,
     submitted
       (calls (dispatch_order Sample.families
                 (Sample.session [Sample.short "MXFA6" 4])
                 short_exit "MXF202601" 1) [])
     = [(Sample.MXF202601, order)] /\
     Order.action order = Buy /\ Order.quantity order = 4)
  /\
  run (dispatch_order Sample.families
         (Sample.session [Sample.short "MXFA6" 2])
         long_exit "MXF202601" 1) []
  = Return None
  /\
  run (exit_requests Sample.families (Sample.session []) "MXF202601"
         [Buy; Sell; Buy]) []
  = Return [None; None; None].
Proof.
  split; [| split; [| split]].
  - apply (proj1 (exit_order_sizing Sample.families
                    (Sample.session [Sample.long "MXFA6" 7])
                    "MXF202601" 1 Sample.MXF202601 (Some 7) []
                    eq_refl eq_refl)).
    vm_compute. reflexivity.
  - apply (proj1 (proj2 (exit_order_sizing Sample.families
                    (Sample.session [Sample.short "MXFA6" 4])
                    "MXF202601" 1 Sample.MXF202601 (Some (- 4)) []
                    eq_refl eq_refl))).
    vm_compute. reflexivity.
  - apply (proj1 (proj2 (proj2 (exit_order_sizing Sample.families
                    (Sample.session [Sample.short "MXFA6" 2])
                    "MXF202601" 1 Sample.MXF202601 (Some (- 2)) []
                    eq_refl eq_refl)))).
    vm_compute. discriminate.
  - apply (proj2 (proj2 (proj2 (proj2 (exit_order_sizing Sample.families
                    (Sample.session [])
                    "MXF202601" 1 Sample.MXF202601 None []
                    eq_refl eq_refl)))) eq_refl [Buy; Sell; Buy]).
Defined.

Lemma submission_failure_is_OrderError_witness :
  (exists e',
     run (place_entry_order Sample.families
            (Sample.failing [] (new_exc SjTimeoutError "no answer"))
            "MXF202601" 2 Buy) []
     = Raise e' /\
     wraps e' (new_exc SjTimeoutError "no answer"))
  /\
  (exists e',
     run (place_exit_order Sample.families
            (Sample.failing [Sample.long "MXFA6" 7]
               (new_exc (OtherException "ConnectionError") "reset"))
            "MXF202601" Buy) []
     = Raise e' /\
     wraps e' (new_exc (OtherException "ConnectionError") "reset")).
Proof.
  split.
  - apply (proj2 (proj1 (submission_failure_is_OrderError Sample.families
                    (Sample.failing [] (new_exc SjTimeoutError "no answer"))
                    "MXF202601" Sample.MXF202601 None [] eq_refl eq_refl)
             2 Buy ltac:(lia))).
    reflexivity.
  - apply (proj2 (proj2 (submission_failure_is_OrderError Sample.families
                    (Sample.failing [Sample.long "MXFA6" 7]
                       (new_exc (OtherException "ConnectionError") "reset"))
                    "MXF202601" Sample.MXF202601 (Some 7) []
                    eq_refl eq_refl)
             Buy) (market_order Sell 7)); reflexivity.
Defined.

(* ===================================================================== *)
(** ** Order status check *)

Lemma sum_float_from (total : float) (deals : list Deal.t) :
  fold_left add (map deal_value deals) total = weighted_sum_from total deals.
Proof.
  revert total. induction deals as [| d rest IH]; intros total; simpl.
  - reflexivity.
  - apply IH.
Qed.

Lemma sum_Z_from (l : list Z) (a : Z) :
  fold_left Z.add l a = a + fold_right Z.add 0 l.
Proof.
  revert a. induction l as [| x l IH]; intros a; simpl.
  - lia.
  - rewrite IH. lia.
Qed.

Lemma total_value_weighted_sum (deals : list Deal.t) :
  total_value deals = weighted_sum deals.
Proof.
  destruct deals as [| d rest]; [reflexivity |].
  unfold total_value, sum_float, weighted_sum. apply sum_float_from.
Qed.

Lemma total_qty_quantity_sum (deals : list Deal.t) :
  total_qty deals = quantity_sum deals.
Proof.
  assert (H : forall l,
             fold_right Z.add 0 (map Deal.quantity l) = quantity_sum l).
  { induction l as [| d l IH]; simpl; [reflexivity | now rewrite IH]. }
  destruct deals as [| d rest]; [reflexivity |].
  unfold total_qty, sum_Z. now rewrite sum_Z_from, H.
Qed.

(** The average is always computed: the division is guarded. *)
Lemma fill_avg_price_cases (deals : list Deal.t) :
  (0 < quantity_sum deals /\
   fill_avg_price deals
   = Return (weighted_sum deals / float_of_int (quantity_sum deals))%float)
  \/
  (quantity_sum deals <= 0 /\ fill_avg_price deals = Return 0%float).
Proof.
  unfold fill_avg_price, truediv. rewrite Z.gtb_ltb.
  rewrite total_qty_quantity_sum.
  destruct (Z.ltb_spec 0 (quantity_sum deals)) as [Hpos | Hle].
  - left. split; [assumption |].
    destruct (Z.eqb_spec (quantity_sum deals) 0) as [E | _]; [lia |].
    now rewrite total_value_weighted_sum.
  - right. split; [assumption | reflexivity].
Qed.


Lemma read_status_average (trade : Trade.t) :
  exists f,
    read_status trade = Return (Full f) /\
    fill_avg_price (or_nil (OrderStatus.deals (Trade.status trade)))
    = Return (FillReport.fill_avg_price f).
Proof.
  unfold read_status.
  destruct (fill_avg_price_cases
              (or_nil (OrderStatus.deals (Trade.status trade))))
    as [(_ & ->) | (_ & ->)]; eexists; split; reflexivity.
Qed.




(** The arithmetic is the machine's: three contracts at 0.1 average to
    the float next above 0.1, as the code reports it. *)
Lemma fill_avg_price_is_rounded :
  reported_average [Sample.deal 0x1.999999999999ap-4 3]
                   0x1.999999999999bp-4%float.
Proof. eexists. split; [reflexivity | vm_compute; reflexivity]. Qed.

Lemma read_status_returns (trade : Trade.t) :
  exists f, read_status trade = Return (Full f).
Proof.
  destruct (read_status_average trade) as (f & E & _). eauto.
Qed.

(** C6. The status check never raises: for every trade handle and every
    answer of the exchange it returns a report.  Given no handle the
    report has status "no_trade" and the exchange is not called; when the
    status refresh raises, the report has status "error" and carries the
    text of the exception; when the refresh succeeds, the full report is
    returned. *)
Theorem check_order_status_never_raises (api : Shioaji)
  (trade : option Trade.t) (tr : Trace) :
  exists report,
    run (check_order_status api trade) tr = Return report /\
    (trade = None ->
     report_status report = "no_trade" /\
     calls (check_order_status api trade) tr = tr) /\
    (forall t e,
       trade = Some t -> on_update_status api t = Raise e ->
       report_status report = "error" /\
       report_error report = Some (str_exc e)) /\
    (forall t t',
       trade = Some t -> on_update_status api t = Return t' ->
       read_status t' = Return report).
Proof.
  destruct trade as [t |].
  - unfold run, check_order_status, try_except, bind, update_status, lift.
    destruct (on_update_status api t) as [t' | e] eqn:Hu.
    + destruct (read_status_returns t') as (f & Hf). rewrite Hf. simpl.
      eexists. split; [reflexivity |]. split; [discriminate |]. split.
      * intros ta ea [= <-] H. rewrite Hu in H. discriminate.
      * intros ta tb [= <-] H. rewrite Hu in H. injection H as <-.
        exact Hf.
    + simpl. eexists. split; [reflexivity |].
      split; [discriminate |]. split.
      * intros ta ea [= <-] H. rewrite Hu in H. injection H as <-.
        split; reflexivity.
      * intros ta tb [= <-] H. rewrite Hu in H. discriminate.
  - eexists. split; [reflexivity |]. repeat split; discriminate.
Qed.

Lemma check_order_status_never_raises_witness :
  (exists report,
     run (check_order_status (Sample.session []) None) [] = Return report /\
     report_status report = "no_trade" /\
     calls (check_order_status (Sample.session []) None) [] = [])
  /\
  (exists report,
     run (check_order_status
            (Sample.failing [] (new_exc SjTimeoutError "no answer"))
            (Some (Trade.mk (market_order Buy 1) Sample.idle))) []
     = Return report /\
     report_status report = "error" /\
     report_error report = Some "no answer").
Proof.
  split.
  - destruct (check_order_status_never_raises (Sample.session []) None [])
      as (report & E & Hnone & _).
    exists report. split; [exact E |]. apply Hnone. reflexivity.
  - destruct (check_order_status_never_raises
                (Sample.failing [] (new_exc SjTimeoutError "no answer"))
                (Some (Trade.mk (market_order Buy 1) Sample.idle)) [])
      as (report & E & _ & Herr & _).
    exists report. split; [exact E |].
    apply (Herr (Trade.mk (market_order Buy 1) Sample.idle)
                (new_exc SjTimeoutError "no answer")); reflexivity.
Defined.

(* ===================================================================== *)
(** ** Further properties: contract directory *)

Section DirectoryMore.

Variable SUPPORTED_FUTURES : list string.
Variable api : Shioaji.

Local Notation "'tradable'" :=
  (_get_futures_contracts SUPPORTED_FUTURES api).

(** X1. Origin of the tradable contracts: a contract is listed exactly
    when the catalog has a list for some supported family, that list holds
    the contract, and the symbol of the contract starts with the name of
    the family; a family the catalog lacks adds nothing and stops
    nothing. *)
Theorem tradable_contract_origin (c : Contract) :
  In c tradable <->
  exists product product_contracts,
    In product SUPPORTED_FUTURES /\
    Futures api product = Some product_contracts /\
    In c product_contracts /\
    String.prefix product (symbol c) = true.
Proof.
  unfold _get_futures_contracts. rewrite in_flat_map. split.
  - intros (product & Hp & Hc).
    destruct (Futures api product) as [pcs |] eqn:E; [| destruct Hc].
    apply filter_In in Hc. destruct Hc as [Hin Hpre].
    exists product, pcs. auto.
  - intros (product & pcs & Hp & E & Hin & Hpre).
    exists product. split; [assumption |].
    rewrite E. apply filter_In. auto.
Qed.

Lemma lookup_by_symbol_found (sym : string) (c : Contract) :
  get_contract_from_symbol SUPPORTED_FUTURES api sym = Return c ->
  In c tradable /\ symbol c = sym.
Proof.
  unfold get_contract_from_symbol.
  destruct (find (fun contract => (symbol contract =? sym)%string) tradable)
    as [x |] eqn:E; [| discriminate].
  intros [= <-]. apply find_some in E. destruct E as [Hin Hs].
  split; [assumption | now apply String.eqb_eq].
Qed.

Lemma same_key_same_item {A B : Type} (f : A -> B) (l : list A) (x y : A) :
  NoDup (map f l) -> In x l -> In y l -> f x = f y -> x = y.
Proof.
  induction l as [| a l IH]; simpl; intros Hnd Hx Hy Hf; [destruct Hx |].
  inversion Hnd as [| ? ? Hnotin Hnd']; subst.
  destruct Hx as [<- | Hx], Hy as [<- | Hy]; auto.
  - exfalso. apply Hnotin. rewrite Hf. now apply in_map.
  - exfalso. apply Hnotin. rewrite <- Hf. now apply in_map.
Qed.

(** X2. From symbol to code and back: the code of a contract found by its
    symbol is itself found by [get_contract_from_contract_code], which
    returns a contract of that code, and the very same contract when no
    two tradable contracts share a code; a code that no tradable contract
    has raises [ValueError]. *)
Theorem lookup_by_code_after_symbol (sym : string) (c : Contract) :
  get_contract_from_symbol SUPPORTED_FUTURES api sym = Return c ->
  (exists c',
     get_contract_from_contract_code SUPPORTED_FUTURES api (code c)
     = Return c' /\
     code c' = code c /\
     (NoDup (get_valid_contract_codes SUPPORTED_FUTURES api) -> c' = c))
  /\
  (forall other,
     ~ In other (get_valid_contract_codes SUPPORTED_FUTURES api) ->
     exists e,
       get_contract_from_contract_code SUPPORTED_FUTURES api other = Raise e
       /\ exc_class e = ValueError).
Proof.
  intros Hc. apply lookup_by_symbol_found in Hc. destruct Hc as [Hin _].
  unfold get_contract_from_contract_code, get_valid_contract_codes. split.
  - destruct (find_present
                (fun contract => (code contract =? code c)%string)
                tradable c Hin (String.eqb_refl _)) as (x & Hx).
    rewrite Hx. exists x. split; [reflexivity |].
    apply find_some in Hx. destruct Hx as [Hxin Hxc].
    apply String.eqb_eq in Hxc. split; [assumption |].
    intros Hnd. now apply (same_key_same_item code tradable x c).
  - intros other Hno. rewrite find_absent.
    + eexists. split; reflexivity.
    + intros y Hy. apply String.eqb_neq. intros E. apply Hno.
      rewrite <- E. now apply in_map.
Qed.

(** X3. A rolling alias and the contract it stands for see one position:
    when the tradable actual contracts of the alias's category and
    delivery month all carry the code of [actual], reading the position of
    the alias and reading the position of [actual] give the same result
    with the same single call. *)
Theorem rolling_and_actual_same_position
  (rolling actual : Contract) (tr : Trace) :
  code rolling = symbol rolling ->
  In actual tradable ->
  actual_for rolling actual ->
  (forall c, In c tradable -> actual_for rolling c -> code c = code actual) ->
  resolve_actual_contract_code SUPPORTED_FUTURES api rolling = code actual
  /\
  get_current_position SUPPORTED_FUTURES api rolling tr
  = get_current_position SUPPORTED_FUTURES api actual tr.
Proof.
  intros Hroll Hin Hact Hsame.
  assert (R : resolve_actual_contract_code SUPPORTED_FUTURES api rolling
              = code actual).
  { unfold resolve_actual_contract_code.
    apply String.eqb_eq in Hroll. rewrite Hroll. simpl.
    destruct (find_present (is_actual_of rolling) tradable actual Hin)
      as (x & Hx).
    { now apply is_actual_of_true. }
    rewrite Hx. apply find_some in Hx. destruct Hx as [Hxin Hxa].
    apply Hsame; [assumption | now apply is_actual_of_true]. }
  split; [exact R |].
  assert (A : resolve_actual_contract_code SUPPORTED_FUTURES api actual
              = code actual).
  { unfold resolve_actual_contract_code.
    destruct Hact as (_ & _ & Hne). apply String.eqb_neq in Hne.
    now rewrite Hne. }
  rewrite !get_current_position_run, R, A. reflexivity.
Qed.

End DirectoryMore.

(* ===================================================================== *)
(** ** Further properties: order placement *)

Section PlacementMore.

Variable SUPPORTED_FUTURES : list string.
Variable api : Shioaji.

Lemma place_entry_order_lookup_failed (sym : string) (q : Z)
  (action : Action) (e : Exc) (tr : Trace) :
  get_contract_from_symbol SUPPORTED_FUTURES api sym = Raise e ->
  place_entry_order SUPPORTED_FUTURES api sym q action tr
  = @on_lookup_error Trade.t e tr.
Proof.
  intros Hc. unfold place_entry_order, bind at 1, try_except at 1, lift.
  rewrite Hc. cbv beta iota. unfold on_lookup_error, raise.
  now destruct (exc_class e).
Qed.

Lemma place_exit_order_lookup_failed (sym : string) (direction : Action)
  (e : Exc) (tr : Trace) :
  get_contract_from_symbol SUPPORTED_FUTURES api sym = Raise e ->
  place_exit_order SUPPORTED_FUTURES api sym direction tr
  = @on_lookup_error (option Trade.t) e tr.
Proof.
  intros Hc. unfold place_exit_order, bind at 1, try_except at 1, lift.
  rewrite Hc. cbv beta iota. unfold on_lookup_error, raise.
  now destruct (exc_class e).
Qed.

Lemma place_entry_order_read_failed (sym : string) (q : Z) (action : Action)
  (contract : Contract) (e : Exc) (tr : Trace) :
  get_contract_from_symbol SUPPORTED_FUTURES api sym = Return contract ->
  run (get_current_position SUPPORTED_FUTURES api contract) tr = Raise e ->
  place_entry_order SUPPORTED_FUTURES api sym q action tr
  = @on_position_error Trade.t e (tr ++ [CallListPositions]).
Proof.
  intros Hc Hp. unfold place_entry_order, bind at 1, try_except at 1, lift.
  rewrite Hc. cbv beta iota. unfold bind at 1, try_except at 1, bind at 1.
  pose proof (get_current_position_calls SUPPORTED_FUTURES api contract tr)
    as Ht.
  unfold run in Hp. unfold calls in Ht.
  destruct (get_current_position SUPPORTED_FUTURES api contract tr)
    as [o tr'].
  simpl in Hp, Ht. subst o tr'. cbv beta iota.
  unfold on_position_error, raise. now destruct (is_account_error e).
Qed.

Lemma place_exit_order_read_failed (sym : string) (direction : Action)
  (contract : Contract) (e : Exc) (tr : Trace) :
  get_contract_from_symbol SUPPORTED_FUTURES api sym = Return contract ->
  run (get_current_position SUPPORTED_FUTURES api contract) tr = Raise e ->
  place_exit_order SUPPORTED_FUTURES api sym direction tr
  = @on_position_error (option Trade.t) e (tr ++ [CallListPositions]).
Proof.
  intros Hc Hp. unfold place_exit_order, bind at 1, try_except at 1, lift.
  rewrite Hc. cbv beta iota. unfold bind at 1, try_except at 1, bind at 1.
  pose proof (get_current_position_calls SUPPORTED_FUTURES api contract tr)
    as Ht.
  unfold run in Hp. unfold calls in Ht.
  destruct (get_current_position SUPPORTED_FUTURES api contract tr)
    as [o tr'].
  simpl in Hp, Ht. subst o tr'. cbv beta iota.
  unfold on_position_error, raise. now destruct (is_account_error e).
Qed.

Lemma lookup_by_symbol_absent (sym : string) :
  ~ In sym (get_valid_symbols SUPPORTED_FUTURES api) ->
  exists e,
    get_contract_from_symbol SUPPORTED_FUTURES api sym = Raise e /\
    exc_class e = ValueError /\ exc_cause e = None.
Proof.
  intros H. unfold get_contract_from_symbol, get_valid_symbols in *.
  rewrite find_absent.
  - eexists. repeat split.
  - intros c Hc. apply String.eqb_neq. intros E. apply H.
    rewrite <- E. now apply in_map.
Qed.

(** X4. Unknown symbol: for a symbol that no tradable contract carries,
    an entry order and an exit order both raise an [OrderError] made from
    the [ValueError] of the lookup, with the text "Contract not found: "
    before its message, and neither calls the exchange at all. *)
Theorem unknown_symbol_rejected_before_any_call (sym : string) (q : Z)
  (action direction : Action) (tr : Trace) :
  ~ In sym (get_valid_symbols SUPPORTED_FUTURES api) ->
  exists cause e',
    exc_class cause = ValueError /\
    exc_class e' = OrderError /\
    exc_cause e' = Some cause /\
    str_exc e' = ("Contract not found: " ++ str_exc cause)%string /\
    place_entry_order SUPPORTED_FUTURES api sym q action tr = (Raise e', tr)
    /\
    place_exit_order SUPPORTED_FUTURES api sym direction tr = (Raise e', tr).
Proof.
  intros H. destruct (lookup_by_symbol_absent sym H) as (e & Hc & Hcls & _).
  exists e, (new_exc_from OrderError ("Contract not found: " ++ str_exc e) e).
  rewrite (place_entry_order_lookup_failed _ _ _ _ _ Hc).
  rewrite (place_exit_order_lookup_failed _ _ _ _ Hc).
  unfold on_lookup_error, raise. rewrite Hcls. repeat split; auto.
Qed.

(** X5. Account errors while the position is read: when the read raises
    [AccountNotSignError] or [AccountNotProvideError], an entry order and
    an exit order both raise an [OrderError] made from it, with the text
    "Account error: " before its message, after the one position call
    and without submitting anything. *)
Theorem account_error_on_position_read (sym : string) (q : Z)
  (action direction : Action) (contract : Contract) (e : Exc) (tr : Trace) :
  get_contract_from_symbol SUPPORTED_FUTURES api sym = Return contract ->
  run (get_current_position SUPPORTED_FUTURES api contract) tr = Raise e ->
  is_account_error e = true ->
  exists e',
    exc_class e' = OrderError /\
    exc_cause e' = Some e /\
    str_exc e' = ("Account error: " ++ str_exc e)%string /\
    place_entry_order SUPPORTED_FUTURES api sym q action tr
    = (Raise e', tr ++ [CallListPositions]) /\
    place_exit_order SUPPORTED_FUTURES api sym direction tr
    = (Raise e', tr ++ [CallListPositions]).
Proof.
  intros Hc Hp Ha.
  exists (new_exc_from OrderError ("Account error: " ++ str_exc e) e).
  rewrite (place_entry_order_read_failed _ _ _ _ _ _ Hc Hp).
  rewrite (place_exit_order_read_failed _ _ _ _ _ Hc Hp).
  unfold on_position_error, raise. rewrite Ha. repeat split; auto.
Qed.

(** X6. Any other failure of the position read passes through: an
    exception that is neither of the two account errors (a timeout of the
    position call, the [ValueError] of an invalid direction) leaves an
    entry order and an exit order unchanged, not as an [OrderError], after
    the one position call and without submitting anything. *)
Theorem other_position_failure_passes_through (sym : string) (q : Z)
  (action direction : Action) (contract : Contract) (e : Exc) (tr : Trace) :
  get_contract_from_symbol SUPPORTED_FUTURES api sym = Return contract ->
  run (get_current_position SUPPORTED_FUTURES api contract) tr = Raise e ->
  is_account_error e = false ->
  place_entry_order SUPPORTED_FUTURES api sym q action tr
  = (Raise e, tr ++ [CallListPositions]) /\
  place_exit_order SUPPORTED_FUTURES api sym direction tr
  = (Raise e, tr ++ [CallListPositions]).
Proof.
  intros Hc Hp Ha.
  rewrite (place_entry_order_read_failed _ _ _ _ _ _ Hc Hp).
  rewrite (place_exit_order_read_failed _ _ _ _ _ Hc Hp).
  unfold on_position_error, raise. rewrite Ha. split; reflexivity.
Qed.

(** X7. An accepted order: when the symbol is found, the position read
    and the exchange accepts the order, an entry order of a quantity
    [q > 0] returns the very trade the exchange gave, an exit order that
    has a position to close does so too, and the calls made are one
    position read followed by one submission. *)
Theorem accepted_order_is_returned (sym : string) (q : Z)
  (action direction : Action) (contract : Contract) (pos : option Z)
  (tr : Trace) :
  get_contract_from_symbol SUPPORTED_FUTURES api sym = Return contract ->
  run (get_current_position SUPPORTED_FUTURES api contract) tr
  = Return pos ->
  (0 < q ->
   forall t,
     on_place_order api contract
       (market_order action (entry_quantity action q (or_0 pos)))
     = Return t ->
     place_entry_order SUPPORTED_FUTURES api sym q action tr
     = (Return t,
        tr ++ [CallListPositions;
               CallPlaceOrder contract
                 (market_order action
                    (entry_quantity action q (or_0 pos)))]))
  /\
  (forall order t,
     exit_order direction (or_0 pos) = Some (Return order) ->
     on_place_order api contract order = Return t ->
     place_exit_order SUPPORTED_FUTURES api sym direction tr
     = (Return (Some t),
        tr ++ [CallListPositions; CallPlaceOrder contract order])).
Proof.
  intros Hc Hp. split.
  - intros Hq t Ht.
    pose proof (entry_quantity_at_least action q (or_0 pos)) as Hn.
    rewrite (place_entry_order_run _ _ _ _ _ _ _ _ Hc Hp) by lia.
    unfold try_except, place_order. rewrite Ht.
    now rewrite <- app_assoc.
  - intros order t Hx Ht.
    rewrite (place_exit_order_run _ _ _ _ _ _ _ Hc Hp), Hx.
    unfold try_except, bind, place_order, ret. rewrite Ht.
    now rewrite <- app_assoc.
Qed.

(** X8. Effect of an entry order: when the symbol is found and the
    position read as [p], the one order an entry of a quantity [q > 0]
    submits, once filled
    completely, leaves the position [max p 0 + q] for a Buy and
    [min p 0 - q] for a Sell: exactly [q] on the requested side when an
    opposite position is reversed, [q] more on that side otherwise. *)
Theorem entry_order_fill_effect (sym : string) (q : Z) (action : Action)
  (contract : Contract) (pos : option Z) (tr : Trace) :
  0 < q ->
  get_contract_from_symbol SUPPORTED_FUTURES api sym = Return contract ->
  run (get_current_position SUPPORTED_FUTURES api contract) tr
  = Return pos ->
  exists order,
    submitted (calls (place_entry_order SUPPORTED_FUTURES api sym q action)
                     tr)
    = submitted tr ++ [(contract, order)] /\
    Order.action order = action /\
    filled_position (or_0 pos) order
    = match action with
      | Buy => Z.max (or_0 pos) 0 + q
      | Sell => Z.min (or_0 pos) 0 - q
      end.
Proof.
  intros Hq Hc Hp. eexists. split.
  - apply (submitted_after_entry _ _ _ _ _ _ _ _ Hq Hc Hp).
  - split; [reflexivity |].
    unfold filled_position. simpl. rewrite entry_quantity_cases.
    destruct action;
      [destruct (Z.ltb_spec (or_0 pos) 0)
      | destruct (Z.ltb_spec 0 (or_0 pos))]; lia.
Qed.

(** X9. Exit orders: whatever the session answers, an exit order call
    submits at most one order and a submitted order has a strictly
    positive quantity; when the position was read as [p], filling that
    order completely leaves the position at zero. *)
Theorem exit_order_positive_and_flattening (sym : string)
  (direction : Action) (tr : Trace) :
  exists news,
    submitted (calls (place_exit_order SUPPORTED_FUTURES api sym direction)
                     tr)
    = submitted tr ++ news /\
    (List.length news <= 1)%nat /\
    Forall (fun co => 0 < Order.quantity (snd co)) news /\
    (forall contract pos,
       get_contract_from_symbol SUPPORTED_FUTURES api sym = Return contract ->
       run (get_current_position SUPPORTED_FUTURES api contract) tr
       = Return pos ->
       Forall (fun co => fst co = contract /\
                         filled_position (or_0 pos) (snd co) = 0) news).
Proof.
  destruct (get_contract_from_symbol SUPPORTED_FUTURES api sym)
    as [contract | e] eqn:Hc.
  - destruct (run (get_current_position SUPPORTED_FUTURES api contract) tr)
      as [pos | e] eqn:Hp.
    + pose proof (exit_order_cases direction (or_0 pos)) as Hcases.
      destruct (exit_order direction (or_0 pos)) as [[order | e1] |] eqn:Hx.
      * rewrite (submitted_after_exit _ _ _ _ _ _ _ _ Hc Hp Hx).
        exists [(contract, order)].
        split; [reflexivity |]. split; [simpl; lia |]. split.
        -- constructor; [| constructor]. simpl.
           destruct direction;
             [destruct (Z.ltb_spec 0 (or_0 pos))
             | destruct (Z.ltb_spec (or_0 pos) 0)];
             try discriminate; injection Hcases as ->; simpl; lia.
        -- intros c' pos' [= <-] Hp'. rewrite Hp in Hp'.
           injection Hp' as <-.
           constructor; [| constructor]. simpl. split; [reflexivity |].
           unfold filled_position.
           destruct direction;
             [destruct (Z.ltb_spec 0 (or_0 pos))
             | destruct (Z.ltb_spec (or_0 pos) 0)];
             try discriminate; injection Hcases as ->; simpl; lia.
      * exfalso.
        destruct direction;
          [destruct (0 <? or_0 pos) | destruct (or_0 pos <? 0)];
          discriminate.
      * exists []. unfold calls.
        rewrite (place_exit_order_no_action _ _ _ _ _ _ _ Hc Hp Hx).
        simpl. rewrite submitted_app. simpl.
        (split; [reflexivity |]); (split; [lia |]);
        (split; [constructor |]); intros; constructor.
    + exists []. unfold calls.
      rewrite (place_exit_order_read_failed _ _ _ _ _ Hc Hp).
      unfold on_position_error, raise.
      destruct (is_account_error e); simpl; rewrite submitted_app; simpl;
        (split; [reflexivity |]); (split; [lia |]);
        (split; [constructor |]); intros; constructor.
  - exists []. unfold calls.
    rewrite (place_exit_order_lookup_failed _ _ _ _ Hc).
    unfold on_lookup_error, raise.
    destruct (exc_class e); simpl; rewrite app_nil_r;
      (split; [reflexivity |]); (split; [lia |]);
      (split; [constructor |]); intros; constructor.
Qed.

End PlacementMore.

(* ===================================================================== *)
(** ** Further properties: order status check *)

(** X10. The status check only refreshes: for a trade handle, whatever
    the exchange answers, the one call made is the status refresh of that
    trade, so no order is submitted and no position is read. *)
Theorem check_order_status_only_refreshes (api : Shioaji) (t : Trade.t)
  (tr : Trace) :
  calls (check_order_status api (Some t)) tr = tr ++ [CallUpdateStatus t] /\
  submitted (calls (check_order_status api (Some t)) tr) = submitted tr.
Proof.
  assert (E : calls (check_order_status api (Some t)) tr
              = tr ++ [CallUpdateStatus t]).
  { unfold calls, check_order_status, try_except, bind, update_status, lift,
      ret.
    destruct (on_update_status api t) as [t' | e]; simpl; [| reflexivity].
    now destruct (read_status t'). }
  split; [exact E |].
  rewrite E, submitted_app. simpl. now rewrite app_nil_r.
Qed.

(* ===================================================================== *)
(** ** Further properties: login *)

Lemma on_login_error_run {A} (e : Exc) (l : list LoginCall) :
  exists e',
    @on_login_error A e l = (Raise e', l) /\
    exc_class e' = LoginError /\ exc_cause e' = Some e /\
    exists label, str_exc e' = (label ++ str_exc e)%string.
Proof.
  destruct e as [c m ca]. unfold on_login_error, st_raise.
  cbv [exc_class].
  destruct c; eexists; (split; [reflexivity |]);
    cbv [new_exc_from str_exc exc_class exc_cause];
    (split; [reflexivity | split; [reflexivity | eexists; reflexivity]]).
Qed.

(** What the certificate step does, case by case. *)
Lemma activate_certificate_run (env : Env) (sj : Brokerage)
  (l : list LoginCall) :
  match truthy (env "CA_PATH"), truthy (env "CA_PASSWORD") with
  | Some ca_path, Some ca_password =>
      match on_list_accounts sj with
      | Return (account :: _) =>
          activate_certificate env sj l
          = (match on_activate_ca sj ca_path ca_password
                                  (Account.person_id account) with
             | Return _ => Return tt
             | Raise e => Raise e
             end,
             l ++ [CallListAccounts;
                   CallActivateCA ca_path ca_password
                                  (Account.person_id account)])
      | Return [] =>
          activate_certificate env sj l
          = (Raise (new_exc LoginError "No accounts found after login"),
             l ++ [CallListAccounts])
      | Raise e =>
          activate_certificate env sj l = (Raise e, l ++ [CallListAccounts])
      end
  | _, _ =>
      exists e,
        activate_certificate env sj l = (Raise e, l) /\
        exc_class e = LoginError /\ exc_cause e = None
  end.
Proof.
  unfold activate_certificate.
  destruct (truthy (env "CA_PATH")) as [p |];
    [destruct (truthy (env "CA_PASSWORD")) as [w |] |];
    try (eexists; repeat split).
  unfold st_bind, list_accounts, activate_ca, st_raise, st_ret.
  destruct (on_list_accounts sj) as [[| a accounts] | e]; try reflexivity.
  rewrite <- app_assoc. simpl.
  now destruct (on_activate_ca sj p w (Account.person_id a)).
Qed.

(** The login once both credentials are there. *)
Lemma get_api_client_run (env : Env) (sj : Brokerage) (simulation : bool)
  (api_key secret_key : string) (l : list LoginCall) :
  truthy (env "API_KEY") = Some api_key ->
  truthy (env "SECRET_KEY") = Some secret_key ->
  get_api_client env sj simulation l
  = match on_Shioaji sj simulation with
    | Raise e => @on_login_error Shioaji e (l ++ [CallShioaji simulation])
    | Return api =>
        match on_login sj api_key secret_key with
        | Raise e =>
            @on_login_error Shioaji e
              (l ++ [CallShioaji simulation; CallLogin api_key secret_key])
        | Return _ =>
            if simulation
            then (Return api,
                  l ++ [CallShioaji simulation;
                        CallLogin api_key secret_key])
            else
              match activate_certificate env sj
                      (l ++ [CallShioaji simulation;
                             CallLogin api_key secret_key]) with
              | (Return _, l') => (Return api, l')
              | (Raise e, l') => @on_login_error Shioaji e l'
              end
        end
    end.
Proof.
  intros Hk Hs. unfold get_api_client. rewrite Hk, Hs.
  unfold st_try, st_bind at 1, new_Shioaji.
  destruct (on_Shioaji sj simulation) as [api | e]; [| reflexivity].
  unfold st_bind at 1, login. rewrite <- app_assoc. simpl.
  destruct (on_login sj api_key secret_key) as [u | e]; [| reflexivity].
  unfold st_bind, st_ret. destruct simulation; simpl; [reflexivity |].
  now destruct (activate_certificate env sj
                  (l ++ [CallShioaji false; CallLogin api_key secret_key]))
    as [[u' | e] l'].
Qed.

Lemma login_raise_is_LoginError (env : Env) (sj : Brokerage)
  (simulation : bool) (l l' : list LoginCall) (e : Exc) :
  get_api_client env sj simulation l = (Raise e, l') ->
  exc_class e = LoginError.
Proof.
  destruct (truthy (env "API_KEY")) as [k |] eqn:Hk;
    [destruct (truthy (env "SECRET_KEY")) as [s |] eqn:Hs |].
  - rewrite (get_api_client_run env sj simulation k s l Hk Hs).
    destruct (on_Shioaji sj simulation) as [api | e0].
    + destruct (on_login sj k s) as [u | e0].
      * destruct simulation; [discriminate |].
        destruct (activate_certificate env sj
                    (l ++ [CallShioaji false; CallLogin k s]))
          as [[u' | e0] l0]; [discriminate |].
        destruct (@on_login_error_run Shioaji e0 l0) as (e' & -> & H & _).
        now intros [= <- _].
      * destruct (@on_login_error_run Shioaji e0
                    (l ++ [CallShioaji simulation; CallLogin k s]))
          as (e' & -> & H & _).
        now intros [= <- _].
    + destruct (@on_login_error_run Shioaji e0
                  (l ++ [CallShioaji simulation])) as (e' & -> & H & _).
      now intros [= <- _].
  - unfold get_api_client. rewrite Hk, Hs. now intros [= <- _].
  - unfold get_api_client. rewrite Hk. now intros [= <- _].
Qed.

(** X13. Only [LoginError] leaves the login: whatever the environment
    holds and whatever the brokerage library raises (a refused token,
    maintenance, a timeout, anything else), [get_api_client] returns a
    session or raises a [LoginError]. *)
Theorem get_api_client_raises_only_LoginError (env : Env) (sj : Brokerage)
  (simulation : bool) (l : list LoginCall) :
  match fst (get_api_client env sj simulation l) with
  | Return _ => True
  | Raise e => exc_class e = LoginError
  end.
Proof.
  destruct (get_api_client env sj simulation l) as [[api | e] l'] eqn:E;
    simpl; [exact I |].
  exact (login_raise_is_LoginError env sj simulation l l' e E).
Qed.

(** X14. Credentials gate every call: when [API_KEY] or [SECRET_KEY] is
    unset or empty, [get_api_client] raises its [LoginError] without any
    call to the brokerage library; when both are set, the session object
    is created in the requested mode and every login made carries exactly
    those two values. *)
Theorem credentials_gate_the_login (env : Env) (sj : Brokerage)
  (simulation : bool) (l : list LoginCall) :
  (truthy (env "API_KEY") = None \/ truthy (env "SECRET_KEY") = None ->
   exists e,
     get_api_client env sj simulation l = (Raise e, l) /\
     exc_class e = LoginError /\ exc_cause e = None)
  /\
  (forall api_key secret_key,
     truthy (env "API_KEY") = Some api_key ->
     truthy (env "SECRET_KEY") = Some secret_key ->
     exists rest,
       snd (get_api_client env sj simulation l)
       = l ++ CallShioaji simulation :: rest /\
       forall k s, In (CallLogin k s) rest ->
                   k = api_key /\ s = secret_key).
Proof.
  split.
  - intros H. unfold get_api_client.
    destruct (truthy (env "API_KEY")) as [k |];
      [destruct (truthy (env "SECRET_KEY")) as [s |] |].
    + destruct H; discriminate.
    + eexists; repeat split.
    + eexists; repeat split.
  - intros k s Hk Hs.
    rewrite (get_api_client_run env sj simulation k s l Hk Hs).
    destruct (on_Shioaji sj simulation) as [api | e].
    + destruct (on_login sj k s) as [u | e].
      * destruct simulation.
        -- exists [CallLogin k s]. split; [reflexivity |].
           intros k' s' [[= <- <-] | []]. auto.
        -- pose proof (activate_certificate_run env sj
                         (l ++ [CallShioaji false; CallLogin k s])) as R.
           destruct (truthy (env "CA_PATH")) as [p |];
             [destruct (truthy (env "CA_PASSWORD")) as [w |] |].
           ++ destruct (on_list_accounts sj) as [[| a accounts] | e];
                rewrite R.
              ** destruct (@on_login_error_run Shioaji
                             (new_exc LoginError
                                "No accounts found after login")
                             ((l ++ [CallShioaji false; CallLogin k s])
                              ++ [CallListAccounts])) as (e' & -> & _).
                 exists [CallLogin k s; CallListAccounts].
                 rewrite <- app_assoc. split; [reflexivity |].
                 intros k' s' [[= <- <-] | [[=] | []]]. auto.
              ** exists [CallLogin k s; CallListAccounts;
                         CallActivateCA p w (Account.person_id a)].
                 split.
                 { destruct (on_activate_ca sj p w (Account.person_id a))
                     as [b | e]; simpl.
                   - now rewrite <- app_assoc.
                   - destruct (@on_login_error_run Shioaji e
                                 ((l ++ [CallShioaji false; CallLogin k s])
                                  ++ [CallListAccounts;
                                      CallActivateCA p w
                                        (Account.person_id a)]))
                       as (e' & -> & _).
                     simpl. now rewrite <- app_assoc. }
                 intros k' s' [[= <- <-] | [[=] | [[=] | []]]]. auto.
              ** destruct (@on_login_error_run Shioaji e
                             ((l ++ [CallShioaji false; CallLogin k s])
                              ++ [CallListAccounts])) as (e' & -> & _).
                 exists [CallLogin k s; CallListAccounts].
                 rewrite <- app_assoc. split; [reflexivity |].
                 intros k' s' [[= <- <-] | [[=] | []]]. auto.
           ++ destruct R as (e & -> & _).
              destruct (@on_login_error_run Shioaji e
                          (l ++ [CallShioaji false; CallLogin k s]))
                as (e' & -> & _).
              exists [CallLogin k s]. split; [reflexivity |].
              intros k' s' [[= <- <-] | []]. auto.
           ++ destruct R as (e & -> & _).
              destruct (@on_login_error_run Shioaji e
                          (l ++ [CallShioaji false; CallLogin k s]))
                as (e' & -> & _).
              exists [CallLogin k s]. split; [reflexivity |].
              intros k' s' [[= <- <-] | []]. auto.
      * destruct (@on_login_error_run Shioaji e
                    (l ++ [CallShioaji simulation; CallLogin k s]))
          as (e' & -> & _).
        exists [CallLogin k s]. split; [reflexivity |].
        intros k' s' [[= <- <-] | []]. auto.
    + destruct (@on_login_error_run Shioaji e
                  (l ++ [CallShioaji simulation])) as (e' & -> & _).
      exists []. split; [reflexivity |]. intros k' s' [].
Qed.

(** X15. Simulation needs no certificate: in simulation mode
    [get_api_client] makes no call other than creating the session object
    and logging in, and its result does not depend on any environment
    variable other than [API_KEY] and [SECRET_KEY]. *)
Theorem simulation_login_needs_no_certificate (env env' : Env)
  (sj : Brokerage) (l : list LoginCall) :
  (exists news,
     snd (get_api_client env sj true l) = l ++ news /\
     forall c, In c news ->
               c = CallShioaji true \/ exists k s, c = CallLogin k s)
  /\
  (env' "API_KEY" = env "API_KEY" ->
   env' "SECRET_KEY" = env "SECRET_KEY" ->
   get_api_client env' sj true l = get_api_client env sj true l).
Proof.
  split.
  - destruct (truthy (env "API_KEY")) as [k |] eqn:Hk;
      [destruct (truthy (env "SECRET_KEY")) as [s |] eqn:Hs |].
    + rewrite (get_api_client_run env sj true k s l Hk Hs).
      destruct (on_Shioaji sj true) as [api | e].
      * exists [CallShioaji true; CallLogin k s]. split.
        -- destruct (on_login sj k s) as [u | e]; [reflexivity |].
           now destruct (@on_login_error_run Shioaji e
                           (l ++ [CallShioaji true; CallLogin k s]))
             as (e' & -> & _).
        -- intros c [<- | [<- | []]]; eauto.
      * exists [CallShioaji true]. split.
        -- now destruct (@on_login_error_run Shioaji e
                           (l ++ [CallShioaji true])) as (e' & -> & _).
        -- intros c [<- | []]; eauto.
    + exists []. unfold get_api_client. rewrite Hk, Hs.
      split; [simpl; now rewrite app_nil_r | intros c []].
    + exists []. unfold get_api_client. rewrite Hk.
      split; [simpl; now rewrite app_nil_r | intros c []].
  - intros Hk Hs. unfold get_api_client. now rewrite Hk, Hs.
Qed.

(** X16. A live session is a certified one: outside simulation,
    [get_api_client] returns a session exactly when both credentials and
    both certificate settings are set and not empty, the session object is
    created, the login accepted, at least one account listed and the
    certificate activation call returns (whatever value it returns, which
    is only logged); the calls are then these four in this order, and the
    certificate is activated for the first account listed. *)
Theorem live_session_is_certified (env : Env) (sj : Brokerage)
  (l l' : list LoginCall) (api : Shioaji) :
  get_api_client env sj false l = (Return api, l') <->
  exists api_key secret_key ca_path ca_password account accounts flag,
    truthy (env "API_KEY") = Some api_key /\
    truthy (env "SECRET_KEY") = Some secret_key /\
    truthy (env "CA_PATH") = Some ca_path /\
    truthy (env "CA_PASSWORD") = Some ca_password /\
    on_Shioaji sj false = Return api /\
    on_login sj api_key secret_key = Return tt /\
    on_list_accounts sj = Return (account :: accounts) /\
    on_activate_ca sj ca_path ca_password (Account.person_id account)
    = Return flag /\
    l' = l ++ [CallShioaji false; CallLogin api_key secret_key;
               CallListAccounts;
               CallActivateCA ca_path ca_password
                              (Account.person_id account)].
Proof.
  split.
  - intros H.
    destruct (truthy (env "API_KEY")) as [k |] eqn:Hk;
      [destruct (truthy (env "SECRET_KEY")) as [s |] eqn:Hs |];
      try (unfold get_api_client in H; rewrite Hk, ?Hs in H;
           discriminate H).
    rewrite (get_api_client_run env sj false k s l Hk Hs) in H.
    destruct (on_Shioaji sj false) as [api0 | e] eqn:Ha.
    2:{ destruct (@on_login_error_run Shioaji e (l ++ [CallShioaji false]))
          as (e' & E & _).
        rewrite E in H. discriminate. }
    destruct (on_login sj k s) as [[] | e] eqn:Hl.
    2:{ destruct (@on_login_error_run Shioaji e
                    (l ++ [CallShioaji false; CallLogin k s]))
          as (e' & E & _).
        rewrite E in H. discriminate. }
    pose proof (activate_certificate_run env sj
                  (l ++ [CallShioaji false; CallLogin k s])) as R.
    destruct (truthy (env "CA_PATH")) as [p |] eqn:Hp;
      [destruct (truthy (env "CA_PASSWORD")) as [w |] eqn:Hw |].
    + destruct (on_list_accounts sj) as [[| a accounts] | e] eqn:Hacc;
        rewrite R in H.
      * destruct (@on_login_error_run Shioaji
                    (new_exc LoginError "No accounts found after login")
                    ((l ++ [CallShioaji false; CallLogin k s])
                     ++ [CallListAccounts])) as (e' & E & _).
        rewrite E in H. discriminate.
      * destruct (on_activate_ca sj p w (Account.person_id a))
          as [flag | e] eqn:Hact.
        -- injection H as <- <-.
           exists k, s, p, w, a, accounts, flag.
           repeat split; auto. now rewrite <- app_assoc.
        -- destruct (@on_login_error_run Shioaji e
                       ((l ++ [CallShioaji false; CallLogin k s])
                        ++ [CallListAccounts;
                            CallActivateCA p w (Account.person_id a)]))
             as (e' & E & _).
           rewrite E in H. discriminate.
      * destruct (@on_login_error_run Shioaji e
                    ((l ++ [CallShioaji false; CallLogin k s])
                     ++ [CallListAccounts])) as (e' & E & _).
        rewrite E in H. discriminate.
    + destruct R as (e & R & _). rewrite R in H.
      destruct (@on_login_error_run Shioaji e
                  (l ++ [CallShioaji false; CallLogin k s]))
        as (e' & E & _).
      rewrite E in H. discriminate.
    + destruct R as (e & R & _). rewrite R in H.
      destruct (@on_login_error_run Shioaji e
                  (l ++ [CallShioaji false; CallLogin k s]))
        as (e' & E & _).
      rewrite E in H. discriminate.
  - intros (k & s & p & w & a & accounts & flag
            & Hk & Hs & Hp & Hw & Ha & Hl & Hacc & Hact & ->).
    rewrite (get_api_client_run env sj false k s l Hk Hs), Ha, Hl.
    pose proof (activate_certificate_run env sj
                  (l ++ [CallShioaji false; CallLogin k s])) as R.
    rewrite Hp, Hw, Hacc, Hact in R. rewrite R.
    now rewrite <- app_assoc.
Qed.

(** X17. A login error raised inside is wrapped once more: outside
    simulation, when the session object is created and the login
    accepted but a certificate setting is unset or empty, or no account
    is listed, [get_api_client] raises a [LoginError] whose cause is the
    [LoginError] of that check and whose message is "Unexpected error
    during login: " followed by the message of the cause; the login has
    been made by then and the certificate is not activated. *)
Theorem inner_login_error_is_wrapped (env : Env) (sj : Brokerage)
  (l : list LoginCall) (api_key secret_key : string) (api : Shioaji) :
  truthy (env "API_KEY") = Some api_key ->
  truthy (env "SECRET_KEY") = Some secret_key ->
  on_Shioaji sj false = Return api ->
  on_login sj api_key secret_key = Return tt ->
  truthy (env "CA_PATH") = None \/ truthy (env "CA_PASSWORD") = None \/
  on_list_accounts sj = Return [] ->
  exists inner e' l',
    get_api_client env sj false l = (Raise e', l') /\
    exc_class inner = LoginError /\
    exc_class e' = LoginError /\
    exc_cause e' = Some inner /\
    str_exc e'
    = ("Unexpected error during login: " ++ str_exc inner)%string /\
    In (CallLogin api_key secret_key) l' /\
    existsb is_activation l' = existsb is_activation l.
Proof.
  intros Hk Hs Ha Hl H.
  rewrite (get_api_client_run env sj false api_key secret_key l Hk Hs).
  rewrite Ha, Hl.
  pose proof (activate_certificate_run env sj
                (l ++ [CallShioaji false; CallLogin api_key secret_key]))
    as R.
  assert (W : forall inner l0,
            exc_class inner = LoginError ->
            @on_login_error Shioaji inner l0
            = (Raise (new_exc_from LoginError
                        ("Unexpected error during login: "
                         ++ str_exc inner) inner), l0)).
  { intros inner l0 Hi. unfold on_login_error. now rewrite Hi. }
  destruct (truthy (env "CA_PATH")) as [p |] eqn:Hp;
    [destruct (truthy (env "CA_PASSWORD")) as [w |] eqn:Hw |].
  - destruct H as [H | [H | H]]; try discriminate.
    rewrite H in R. rewrite R.
    exists (new_exc LoginError "No accounts found after login").
    rewrite W by reflexivity.
    do 2 eexists. split; [reflexivity |]. repeat split.
    + apply in_or_app. left. apply in_or_app. right. simpl. auto.
    + rewrite !existsb_app. simpl. now rewrite !orb_false_r.
  - destruct R as (e & R & Hcls & _). rewrite R.
    exists e. rewrite (W e _ Hcls).
    do 2 eexists. split; [reflexivity |]. repeat split; auto.
    + apply in_or_app. right. simpl. auto.
    + rewrite existsb_app. simpl. now rewrite orb_false_r.
  - destruct R as (e & R & Hcls & _). rewrite R.
    exists e. rewrite (W e _ Hcls).
    do 2 eexists. split; [reflexivity |]. repeat split; auto.
    + apply in_or_app. right. simpl. auto.
    + rewrite existsb_app. simpl. now rewrite orb_false_r.
Qed.

(* ===================================================================== *)
(** ** Further properties: the order endpoint *)

Lemma is_OrderError_true (e : Exc) :
  is_OrderError e = true <-> exc_class e = OrderError.
Proof.
  unfold is_OrderError. destruct (exc_class e); split;
    congruence || discriminate.
Qed.

Lemma wraps_is_OrderError (e' e : Exc) : wraps e' e -> is_OrderError e' = true.
Proof. intros (H & _). now apply is_OrderError_true. Qed.

Section EndpointFacts.

Variable SUPPORTED_FUTURES : list string.

Lemma lookup_raises_ValueError (api : Shioaji) (sym : string) (e : Exc) :
  get_contract_from_symbol SUPPORTED_FUTURES api sym = Raise e ->
  exc_class e = ValueError.
Proof.
  unfold get_contract_from_symbol.
  destruct (find _ _); [discriminate | now intros [= <-]].
Qed.

(** How an entry order call can end: with the trade of the one order
    submitted, with an [OrderError], with what the position read raised,
    or with what the order constructor raised for a quantity that is not
    positive. *)
Lemma place_entry_order_outcomes (api : Shioaji) (sym : string) (q : Z)
  (action : Action) (tr : Trace) :
  match place_entry_order SUPPORTED_FUTURES api sym q action tr with
  | (Return t, tr') =>
      exists contract order,
        tr' = tr ++ [CallListPositions; CallPlaceOrder contract order] /\
        on_place_order api contract order = Return t
  | (Raise e, tr') =>
      is_OrderError e = true \/
      (tr' = tr ++ [CallListPositions] /\
       exists contract,
         get_contract_from_symbol SUPPORTED_FUTURES api sym
         = Return contract /\
         run (get_current_position SUPPORTED_FUTURES api contract) tr
         = Raise e /\
         is_account_error e = false) \/
      (tr' = tr ++ [CallListPositions] /\
       exists n, q <= n /\ n <= 0 /\ api_Order action n = Raise e)
  end.
Proof.
  destruct (get_contract_from_symbol SUPPORTED_FUTURES api sym)
    as [contract | e] eqn:Hc.
  - destruct (run (get_current_position SUPPORTED_FUTURES api contract) tr)
      as [pos | e] eqn:Hp.
    + pose proof (entry_quantity_at_least action q (or_0 pos)) as Hn.
      destruct (Z.ltb_spec 0 (entry_quantity action q (or_0 pos)))
        as [Hpos | Hle].
      * rewrite (place_entry_order_run _ _ _ _ _ _ _ _ Hc Hp Hpos).
        unfold try_except, place_order.
        destruct (on_place_order api contract
                    (market_order action
                       (entry_quantity action q (or_0 pos))))
          as [t | e] eqn:Ho.
        -- do 2 eexists. split; [now rewrite <- app_assoc | exact Ho].
        -- destruct (@on_submit_error_run Trade.t e
                       ((tr ++ [CallListPositions])
                        ++ [CallPlaceOrder contract
                              (market_order action
                                 (entry_quantity action q (or_0 pos)))]))
             as (e' & -> & W).
           left. now apply (wraps_is_OrderError e' e).
      * rewrite (place_entry_order_built _ _ _ _ _ _ _ _ Hc Hp).
        destruct (api_Order_rejects action _ Hle) as (e & He & _).
        rewrite He. right. right. split; [reflexivity |]. eauto.
    + rewrite (place_entry_order_read_failed _ _ _ _ _ _ _ _ Hc Hp).
      unfold on_position_error, raise.
      destruct (is_account_error e) eqn:Ha; [now left |].
      right. left. split; [reflexivity |]. exists contract. auto.
  - rewrite (place_entry_order_lookup_failed _ _ _ _ _ _ _ Hc).
    unfold on_lookup_error, raise.
    rewrite (lookup_raises_ValueError _ _ _ Hc). now left.
Qed.

(** How an exit order call can end. *)
Lemma place_exit_order_outcomes (api : Shioaji) (sym : string)
  (direction : Action) (tr : Trace) :
  match place_exit_order SUPPORTED_FUTURES api sym direction tr with
  | (Return (Some t), tr') =>
      exists contract order,
        tr' = tr ++ [CallListPositions; CallPlaceOrder contract order] /\
        on_place_order api contract order = Return t
  | (Return None, tr') => tr' = tr ++ [CallListPositions]
  | (Raise e, tr') =>
      is_OrderError e = true \/
      (tr' = tr ++ [CallListPositions] /\
       exists contract,
         get_contract_from_symbol SUPPORTED_FUTURES api sym
         = Return contract /\
         run (get_current_position SUPPORTED_FUTURES api contract) tr
         = Raise e /\
         is_account_error e = false)
  end.
Proof.
  destruct (get_contract_from_symbol SUPPORTED_FUTURES api sym)
    as [contract | e] eqn:Hc.
  - destruct (run (get_current_position SUPPORTED_FUTURES api contract) tr)
      as [pos | e] eqn:Hp.
    + rewrite (place_exit_order_run _ _ _ _ _ _ _ Hc Hp).
      pose proof (exit_order_cases direction (or_0 pos)) as Hcases.
      destruct (exit_order direction (or_0 pos)) as [[order | e1] |];
        [| exfalso | reflexivity].
      * unfold try_except, bind, place_order, ret.
        destruct (on_place_order api contract order) as [t | e] eqn:Ho.
        -- do 2 eexists. split; [now rewrite <- app_assoc | exact Ho].
        -- destruct (@on_submit_error_run (option Trade.t) e
                       ((tr ++ [CallListPositions])
                        ++ [CallPlaceOrder contract order]))
             as (e' & -> & W).
           left. now apply (wraps_is_OrderError e' e).
      * destruct direction;
          [destruct (0 <? or_0 pos) | destruct (or_0 pos <? 0)];
          discriminate.
    + rewrite (place_exit_order_read_failed _ _ _ _ _ _ _ Hc Hp).
      unfold on_position_error, raise.
      destruct (is_account_error e) eqn:Ha; [now left |].
      right. split; [reflexivity |]. exists contract. auto.
  - rewrite (place_exit_order_lookup_failed _ _ _ _ _ _ Hc).
    unfold on_lookup_error, raise.
    rewrite (lookup_raises_ValueError _ _ _ Hc). now left.
Qed.

(** How the dispatch of a request can end. *)
Lemma dispatch_order_outcomes (api : Shioaji) (action : ACCEPT_ACTIONS)
  (sym : string) (q : Z) (tr : Trace) :
  match dispatch_order SUPPORTED_FUTURES api action sym q tr with
  | (Return (Some t), tr') =>
      exists contract order,
        tr' = tr ++ [CallListPositions; CallPlaceOrder contract order] /\
        on_place_order api contract order = Return t
  | (Return None, tr') =>
      tr' = tr ++ [CallListPositions] /\
      (action = long_exit \/ action = short_exit)
  | (Raise e, tr') =>
      is_OrderError e = true \/
      (tr' = tr ++ [CallListPositions] /\
       exists contract,
         get_contract_from_symbol SUPPORTED_FUTURES api sym
         = Return contract /\
         run (get_current_position SUPPORTED_FUTURES api contract) tr
         = Raise e /\
         is_account_error e = false) \/
      (tr' = tr ++ [CallListPositions] /\
       exists side n, q <= n /\ n <= 0 /\ api_Order side n = Raise e)
  end.
Proof.
  destruct action; unfold dispatch_order.
  - pose proof (place_entry_order_outcomes api sym q Buy tr) as H.
    unfold bind, ret.
    destruct (place_entry_order SUPPORTED_FUTURES api sym q Buy tr)
      as [[t | e] tr']; [assumption |].
    destruct H as [H | [H | (H & n & Hn)]]; eauto 8.
  - pose proof (place_exit_order_outcomes api sym Buy tr) as H.
    destruct (place_exit_order SUPPORTED_FUTURES api sym Buy tr)
      as [[[t |] | e] tr']; auto.
    destruct H as [H | H]; auto.
  - pose proof (place_entry_order_outcomes api sym q Sell tr) as H.
    unfold bind, ret.
    destruct (place_entry_order SUPPORTED_FUTURES api sym q Sell tr)
      as [[t | e] tr']; [assumption |].
    destruct H as [H | [H | (H & n & Hn)]]; eauto 8.
  - pose proof (place_exit_order_outcomes api sym Sell tr) as H.
    destruct (place_exit_order SUPPORTED_FUTURES api sym Sell tr)
      as [[[t |] | e] tr']; auto.
    destruct H as [H | H]; auto.
Qed.

Variable env : Env.
Variable sj : Brokerage.
Variable db : Database.
Variable str_trade : Trade.t -> Outcome string.

Local Notation "'row_of' r" :=
  (OrderHistory.mk (OrderRequest.symbol r) (OrderRequest.action r)
                   (OrderRequest.quantity r))
  (at level 10, r at level 9).

Local Notation "'dispatched' api r" :=
  (dispatch_order SUPPORTED_FUTURES api (OrderRequest.action r)
                  (OrderRequest.symbol r) (OrderRequest.quantity r))
  (at level 10, api at level 9, r at level 9).

(** X18. What each answer of [create_order] means.  A success answer
    carries the text of the trade the exchange gave for the one order
    submitted, and comes with one "success" row holding that text.  A
    no-action answer comes only for an exit request that returned [None],
    with nothing submitted and one "no_action" row.  An HTTP 503 carries
    the message of the [LoginError] the login raised, with no call to the
    exchange at all; an HTTP 400 carries the message of the [OrderError]
    the order call raised; both come with one "failed" row holding that
    message, and no other status code is raised.  When the endpoint ends
    with an exception it does not handle, no row is written. *)
Theorem create_order_answers (r : OrderRequest.t) (simulation : bool)
  (w : World) :
  match create_order SUPPORTED_FUTURES env sj db str_trade r simulation w with
  | (Respond (Success order), w') =>
      (exists api l contract o t,
         get_api_client env sj simulation (logins w) = (Return api, l) /\
         run (dispatched api r) (exchange w) = Return (Some t) /\
         on_place_order api contract o = Return t /\
         str_trade t = Return order /\
         submitted (exchange w')
         = submitted (exchange w) ++ [(contract, o)]) /\
      history w' = history w ++ [row_of r "success" (Some order) None]
  | (Respond (NoAction message), w') =>
      message = "No position to exit or invalid action" /\
      (OrderRequest.action r = long_exit \/
       OrderRequest.action r = short_exit) /\
      (exists api l,
         get_api_client env sj simulation (logins w) = (Return api, l) /\
         run (dispatched api r) (exchange w) = Return None) /\
      submitted (exchange w') = submitted (exchange w) /\
      history w' = history w ++ [row_of r "no_action" None None]
  | (HTTPException status_code detail, w') =>
      ((status_code = 503 /\
        exchange w' = exchange w /\
        exists e l,
          get_api_client env sj simulation (logins w) = (Raise e, l) /\
          exc_class e = LoginError /\
          detail = str_exc e)
       \/
       (status_code = 400 /\
        exists api l e,
          get_api_client env sj simulation (logins w) = (Return api, l) /\
          run (dispatched api r) (exchange w) = Raise e /\
          exc_class e = OrderError /\
          detail = str_exc e)) /\
      history w' = history w ++ [row_of r "failed" None (Some detail)]
  | (Unhandled _, w') => history w' = history w
  end.
Proof.
  unfold create_order, record_then, commit.
  destruct (get_api_client env sj simulation (logins w))
    as [[api | e] l] eqn:Hg.
  - pose proof (dispatch_order_outcomes api (OrderRequest.action r)
                  (OrderRequest.symbol r) (OrderRequest.quantity r)
                  (exchange w)) as H.
    destruct (dispatch_order SUPPORTED_FUTURES api (OrderRequest.action r)
                (OrderRequest.symbol r) (OrderRequest.quantity r)
                (exchange w)) as [[[t |] | e] tr] eqn:Hd.
    + destruct H as (contract & order & -> & Ho).
      destruct (str_trade t) as [text | e] eqn:Hs; [| reflexivity].
      cbn [history logins exchange].
      destruct (on_commit db (history w) _) as [u | e]; [| reflexivity].
      cbn [history exchange]. split; [| reflexivity].
      exists api, l, contract, order, t.
      split; [reflexivity |].
      split; [unfold run; now rewrite Hd |].
      split; [exact Ho |]. split; [exact Hs |].
      rewrite submitted_app. reflexivity.
    + destruct H as (-> & Hact). cbn [history logins exchange].
      destruct (on_commit db (history w) _) as [u | e]; [| reflexivity].
      cbn [history exchange].
      split; [reflexivity |]. split; [exact Hact |].
      split; [exists api, l; split;
                [reflexivity | unfold run; now rewrite Hd] |].
      split; [| reflexivity].
      rewrite submitted_app. simpl. now rewrite app_nil_r.
    + destruct (is_OrderError e) eqn:Hoe; [| reflexivity].
      cbn [history logins exchange].
      destruct (on_commit db (history w) _) as [u | e1]; [| reflexivity].
      cbn [history exchange]. split; [| reflexivity].
      right. split; [reflexivity |]. exists api, l, e.
      split; [reflexivity |].
      split; [unfold run; now rewrite Hd |].
      split; [now apply is_OrderError_true | reflexivity].
  - unfold is_LoginError.
    rewrite (login_raise_is_LoginError _ _ _ _ _ _ Hg).
    cbn [history logins exchange].
    destruct (on_commit db (history w) _) as [u | e1]; [| reflexivity].
    cbn [history exchange]. split; [| reflexivity].
    left. split; [reflexivity |]. split; [reflexivity |].
    exists e, l. split; [reflexivity |].
    split; [exact (login_raise_is_LoginError _ _ _ _ _ _ Hg) | reflexivity].
Qed.

(** X19. What [create_order] does not handle.  An exception leaves the
    endpoint unhandled in four cases only: it was raised by the position
    read and is neither of the two account errors; it was raised by the
    order constructor for an entry quantity that is not positive, which a
    request of a quantity [q > 0] never has; it was raised by [str] of
    the trade of an accepted order; or it was raised by the write of the
    row to the order history.  In the first two the position call is the
    only exchange call made and no order has been submitted.  In all four
    no row is written for the request. *)
Theorem create_order_unhandled (r : OrderRequest.t) (simulation : bool)
  (w w' : World) (e : Exc) :
  create_order SUPPORTED_FUTURES env sj db str_trade r simulation w
  = (Unhandled e, w') ->
  history w' = history w /\
  ((exchange w' = exchange w ++ [CallListPositions] /\
    is_account_error e = false /\
    exists api l contract,
      get_api_client env sj simulation (logins w) = (Return api, l) /\
      get_contract_from_symbol SUPPORTED_FUTURES api (OrderRequest.symbol r)
      = Return contract /\
      run (get_current_position SUPPORTED_FUTURES api contract) (exchange w)
      = Raise e)
   \/
   (exchange w' = exchange w ++ [CallListPositions] /\
    OrderRequest.quantity r <= 0 /\
    exists side n, n <= 0 /\ api_Order side n = Raise e)
   \/
   (exists api l contract o t,
      get_api_client env sj simulation (logins w) = (Return api, l) /\
      run (dispatched api r) (exchange w) = Return (Some t) /\
      on_place_order api contract o = Return t /\
      exchange w'
      = exchange w ++ [CallListPositions; CallPlaceOrder contract o] /\
      str_trade t = Raise e)
   \/
   (exists status order_result error_message,
      on_commit db (history w)
        (row_of r status order_result error_message)
      = Raise e)).
Proof.
  unfold create_order, record_then, commit.
  destruct (get_api_client env sj simulation (logins w))
    as [[api | e0] l] eqn:Hg.
  - pose proof (dispatch_order_outcomes api (OrderRequest.action r)
                  (OrderRequest.symbol r) (OrderRequest.quantity r)
                  (exchange w)) as H.
    destruct (dispatch_order SUPPORTED_FUTURES api (OrderRequest.action r)
                (OrderRequest.symbol r) (OrderRequest.quantity r)
                (exchange w)) as [[[t |] | e1] tr] eqn:Hd.
    + destruct H as (contract & order & -> & Ho).
      destruct (str_trade t) as [text | e1] eqn:Hs.
      * cbn [history logins exchange].
        destruct (on_commit db (history w) _) as [u | e1] eqn:Hdb;
          [discriminate |].
        intros [= <- <-]. split; [reflexivity |].
        right. right. right. eauto.
      * intros [= <- <-]. split; [reflexivity |].
        right. right. left. exists api, l, contract, order, t.
        split; [reflexivity |].
        split; [unfold run; now rewrite Hd |].
        split; [exact Ho |]. split; [reflexivity | exact Hs].
    + cbn [history logins exchange].
      destruct (on_commit db (history w) _) as [u | e1] eqn:Hdb;
        [discriminate |].
      intros [= <- <-]. split; [reflexivity |].
      right. right. right. eauto.
    + destruct (is_OrderError e1) eqn:Hoe.
      * cbn [history logins exchange].
        destruct (on_commit db (history w) _) as [u | e2] eqn:Hdb;
          [discriminate |].
        intros [= <- <-]. split; [reflexivity |].
        right. right. right. eauto.
      * intros [= <- <-]. split; [reflexivity |].
        destruct H as [H | [(-> & contract & Hc & Hp & Ha)
                           | (-> & side & n & Hqn & Hn & He)]].
        -- congruence.
        -- left. split; [reflexivity |]. split; [exact Ha |].
           exists api, l, contract. auto.
        -- right. left. split; [reflexivity |]. split; [lia |]. eauto.
  - unfold is_LoginError.
    rewrite (login_raise_is_LoginError _ _ _ _ _ _ Hg).
    cbn [history logins exchange].
    destruct (on_commit db (history w) _) as [u | e1] eqn:Hdb;
      [discriminate |].
    intros [= <- <-]. split; [reflexivity |].
    right. right. right. eauto.
Qed.

End EndpointFacts.

(** The outcome of the login and the calls it adds do not depend on the
    calls made before. *)
Lemma get_api_client_shape (env : Env) (sj : Brokerage) (simulation : bool) :
  exists o news,
    forall l, get_api_client env sj simulation l = (o, l ++ news).
Proof.
  destruct (truthy (env "API_KEY")) as [k |] eqn:Hk;
    [destruct (truthy (env "SECRET_KEY")) as [s |] eqn:Hs |].
  - assert (W : forall e : Exc, exists e' : Exc,
              forall l0, @on_login_error Shioaji e l0 = (Raise e', l0)).
    { intros e. unfold on_login_error, st_raise.
      destruct (exc_class e); eexists; reflexivity. }
    destruct (on_Shioaji sj simulation) as [api | e] eqn:Ha.
    + destruct (on_login sj k s) as [u | e] eqn:Hl.
      * destruct simulation.
        -- exists (Return api), [CallShioaji true; CallLogin k s].
           intros l.
           now rewrite (get_api_client_run env sj true k s l Hk Hs), Ha, Hl.
        -- destruct (truthy (env "CA_PATH")) as [p |] eqn:Hp;
             [destruct (truthy (env "CA_PASSWORD")) as [w |] eqn:Hw |].
           ++ destruct (on_list_accounts sj) as [[| a accounts] | e] eqn:Hacc.
              ** destruct (W (new_exc LoginError
                               "No accounts found after login"))
                   as (e' & He').
                 exists (Raise e'),
                   [CallShioaji false; CallLogin k s; CallListAccounts].
                 intros l.
                 rewrite (get_api_client_run env sj false k s l Hk Hs),
                   Ha, Hl.
                 pose proof (activate_certificate_run env sj
                               (l ++ [CallShioaji false; CallLogin k s]))
                   as R.
                 rewrite Hp, Hw, Hacc in R. rewrite R, He'.
                 now rewrite <- app_assoc.
              ** destruct (on_activate_ca sj p w (Account.person_id a))
                   as [flag | e] eqn:Hact.
                 --- exists (Return api),
                       [CallShioaji false; CallLogin k s; CallListAccounts;
                        CallActivateCA p w (Account.person_id a)].
                     intros l.
                     rewrite (get_api_client_run env sj false k s l Hk Hs),
                       Ha, Hl.
                     pose proof (activate_certificate_run env sj
                                   (l ++ [CallShioaji false; CallLogin k s]))
                       as R.
                     rewrite Hp, Hw, Hacc, Hact in R. rewrite R.
                     now rewrite <- app_assoc.
                 --- destruct (W e) as (e' & He').
                     exists (Raise e'),
                       [CallShioaji false; CallLogin k s; CallListAccounts;
                        CallActivateCA p w (Account.person_id a)].
                     intros l.
                     rewrite (get_api_client_run env sj false k s l Hk Hs),
                       Ha, Hl.
                     pose proof (activate_certificate_run env sj
                                   (l ++ [CallShioaji false; CallLogin k s]))
                       as R.
                     rewrite Hp, Hw, Hacc, Hact in R. rewrite R, He'.
                     now rewrite <- app_assoc.
              ** destruct (W e) as (e' & He').
                 exists (Raise e'),
                   [CallShioaji false; CallLogin k s; CallListAccounts].
                 intros l.
                 rewrite (get_api_client_run env sj false k s l Hk Hs),
                   Ha, Hl.
                 pose proof (activate_certificate_run env sj
                               (l ++ [CallShioaji false; CallLogin k s]))
                   as R.
                 rewrite Hp, Hw, Hacc in R. rewrite R, He'.
                 now rewrite <- app_assoc.
           ++ assert (R : exists e, forall l0,
                        activate_certificate env sj l0 = (Raise e, l0)).
              { unfold activate_certificate. rewrite Hp, Hw.
                eexists. reflexivity. }
              destruct R as (e & R). destruct (W e) as (e' & He').
              exists (Raise e'), [CallShioaji false; CallLogin k s].
              intros l.
              now rewrite (get_api_client_run env sj false k s l Hk Hs),
                Ha, Hl, R, He'.
           ++ assert (R : exists e, forall l0,
                        activate_certificate env sj l0 = (Raise e, l0)).
              { unfold activate_certificate. rewrite Hp.
                eexists. reflexivity. }
              destruct R as (e & R). destruct (W e) as (e' & He').
              exists (Raise e'), [CallShioaji false; CallLogin k s].
              intros l.
              now rewrite (get_api_client_run env sj false k s l Hk Hs),
                Ha, Hl, R, He'.
      * destruct (W e) as (e' & He').
        exists (Raise e'), [CallShioaji simulation; CallLogin k s].
        intros l.
        now rewrite (get_api_client_run env sj simulation k s l Hk Hs),
          Ha, Hl, He'.
    + destruct (W e) as (e' & He').
      exists (Raise e'), [CallShioaji simulation]. intros l.
      now rewrite (get_api_client_run env sj simulation k s l Hk Hs),
        Ha, He'.
  - eexists _, []. intros l. unfold get_api_client. rewrite Hk, Hs.
    unfold st_raise. now rewrite app_nil_r.
  - eexists _, []. intros l. unfold get_api_client. rewrite Hk.
    unfold st_raise. now rewrite app_nil_r.
Qed.

Section ValidationFacts.

Variable SUPPORTED_FUTURES : list string.
Variable env : Env.
Variable sj : Brokerage.

Lemma validate_symbol_passed (sym : string) (l : list LoginCall) (u : unit) :
  fst (validate_symbol SUPPORTED_FUTURES env sj sym l) = Return u ->
  exists api l',
    get_api_client env sj true l = (Return api, l') /\
    In sym (get_valid_symbols SUPPORTED_FUTURES api).
Proof.
  unfold validate_symbol, st_try, st_bind.
  destruct (get_api_client env sj true l) as [[api | e] l'] eqn:Hg.
  - destruct (existsb (String.eqb sym)
                (get_valid_symbols SUPPORTED_FUTURES api)) eqn:Hx;
      [| discriminate].
    intros _. exists api, l'. split; [reflexivity |].
    apply existsb_exists in Hx. destruct Hx as (x & Hin & Hx).
    apply String.eqb_eq in Hx. now subst x.
  - now destruct (is_LoginError e).
Qed.

(** X20. The validator of the request: it always logs in in simulation
    mode; it passes only when that login succeeds and the simulation
    session lists the symbol; every failure, of the login or of the
    symbol, leaves it as a [ValueError]. *)
Theorem validate_symbol_checks_simulation_catalog (sym : string)
  (l : list LoginCall) :
  match validate_symbol SUPPORTED_FUTURES env sj sym l with
  | (Return _, l') =>
      exists api,
        get_api_client env sj true l = (Return api, l') /\
        In sym (get_valid_symbols SUPPORTED_FUTURES api)
  | (Raise e, l') =>
      exc_class e = ValueError /\
      l' = snd (get_api_client env sj true l) /\
      match fst (get_api_client env sj true l) with
      | Return api => ~ In sym (get_valid_symbols SUPPORTED_FUTURES api)
      | Raise cause => exc_cause e = Some cause
      end
  end.
Proof.
  unfold validate_symbol, st_try, st_bind.
  destruct (get_api_client env sj true l) as [[api | e] l'] eqn:Hg.
  - destruct (existsb (String.eqb sym)
                (get_valid_symbols SUPPORTED_FUTURES api)) eqn:Hx.
    + simpl. exists api. split; [reflexivity |].
      apply existsb_exists in Hx. destruct Hx as (x & Hin & Hx).
      apply String.eqb_eq in Hx. now subst x.
    + simpl. repeat split.
      intros Hin.
      assert (existsb (String.eqb sym)
                (get_valid_symbols SUPPORTED_FUTURES api) = true).
      { apply existsb_exists. exists sym. split; [assumption |].
        apply String.eqb_refl. }
      congruence.
  - unfold is_LoginError.
    rewrite (login_raise_is_LoginError _ _ _ _ _ _ Hg). simpl.
    repeat split.
Qed.

(** Once the symbol is found, every request starts with the position
    read, whatever follows. *)
Lemma dispatch_order_reads_first (api : Shioaji) (action : ACCEPT_ACTIONS)
  (sym : string) (q : Z) (contract : Contract) (tr : Trace) :
  get_contract_from_symbol SUPPORTED_FUTURES api sym = Return contract ->
  exists rest o,
    dispatch_order SUPPORTED_FUTURES api action sym q tr
    = (o, tr ++ CallListPositions :: rest).
Proof.
  intros Hc.
  destruct (run (get_current_position SUPPORTED_FUTURES api contract) tr)
    as [pos | e] eqn:Hp.
  - pose proof (exit_order_cases Buy (or_0 pos)) as HxB.
    pose proof (exit_order_cases Sell (or_0 pos)) as HxS.
    destruct action; unfold dispatch_order.
    + unfold bind at 1.
      rewrite (place_entry_order_built _ _ _ _ _ _ _ _ Hc Hp).
      destruct (api_Order Buy _) as [order | e]; [| eauto].
      unfold try_except, place_order, ret.
      rewrite <- app_assoc. simpl.
      destruct (on_place_order api contract order) as [t | e].
      * eauto.
      * destruct (@on_submit_error_run Trade.t e
                    (tr ++ [CallListPositions;
                            CallPlaceOrder contract order]))
          as (e' & -> & _).
        eauto.
    + rewrite (place_exit_order_run _ _ _ _ _ _ _ Hc Hp).
      destruct (exit_order Buy (or_0 pos)) as [[order | e] |]; [| eauto ..].
      unfold try_except, bind, place_order, ret.
      rewrite <- app_assoc. simpl.
      destruct (on_place_order api contract order) as [t | e].
      * eauto.
      * destruct (@on_submit_error_run (option Trade.t) e
                    (tr ++ [CallListPositions;
                            CallPlaceOrder contract order]))
          as (e' & -> & _).
        eauto.
    + unfold bind at 1.
      rewrite (place_entry_order_built _ _ _ _ _ _ _ _ Hc Hp).
      destruct (api_Order Sell _) as [order | e]; [| eauto].
      unfold try_except, place_order, ret.
      rewrite <- app_assoc. simpl.
      destruct (on_place_order api contract order) as [t | e].
      * eauto.
      * destruct (@on_submit_error_run Trade.t e
                    (tr ++ [CallListPositions;
                            CallPlaceOrder contract order]))
          as (e' & -> & _).
        eauto.
    + rewrite (place_exit_order_run _ _ _ _ _ _ _ Hc Hp).
      destruct (exit_order Sell (or_0 pos)) as [[order | e] |]; [| eauto ..].
      unfold try_except, bind, place_order, ret.
      rewrite <- app_assoc. simpl.
      destruct (on_place_order api contract order) as [t | e].
      * eauto.
      * destruct (@on_submit_error_run (option Trade.t) e
                    (tr ++ [CallListPositions;
                            CallPlaceOrder contract order]))
          as (e' & -> & _).
        eauto.
  - exists [].
    destruct action; unfold dispatch_order.
    + unfold bind at 1.
      rewrite (place_entry_order_read_failed _ _ _ _ _ _ _ _ Hc Hp).
      unfold on_position_error, raise.
      destruct (is_account_error e); eauto.
    + rewrite (place_exit_order_read_failed _ _ _ _ _ _ _ Hc Hp).
      unfold on_position_error, raise.
      destruct (is_account_error e); eauto.
    + unfold bind at 1.
      rewrite (place_entry_order_read_failed _ _ _ _ _ _ _ _ Hc Hp).
      unfold on_position_error, raise.
      destruct (is_account_error e); eauto.
    + rewrite (place_exit_order_read_failed _ _ _ _ _ _ _ Hc Hp).
      unfold on_position_error, raise.
      destruct (is_account_error e); eauto.
Qed.

(** The brokerage as it answers the login of [create_order], a login
    apart from the validator's; the order history; [str] of a trade. *)
Variable sj' : Brokerage.
Variable db : Database.
Variable str_trade : Trade.t -> Outcome string.

(** X21. A validated request finds its contract.  The validator and
    [create_order] log in separately.  When the validator passes for the
    symbol of a request, the login of [create_order] succeeds, and the
    session it gives lists every symbol that the session of the validator
    listed, [create_order] finds the contract and reaches the position
    read, so its answer is never the rejection of an unknown symbol. *)
Theorem validated_request_reaches_position_read (r : OrderRequest.t)
  (simulation : bool) (l l' : list LoginCall) (w : World) (api : Shioaji) :
  fst (validate_symbol SUPPORTED_FUTURES env sj (OrderRequest.symbol r) l)
  = Return tt ->
  get_api_client env sj' simulation (logins w) = (Return api, l') ->
  (forall api0 l0,
     get_api_client env sj true l = (Return api0, l0) ->
     incl (get_valid_symbols SUPPORTED_FUTURES api0)
          (get_valid_symbols SUPPORTED_FUTURES api)) ->
  exists contract rest,
    get_contract_from_symbol SUPPORTED_FUTURES api (OrderRequest.symbol r)
    = Return contract /\
    exchange (snd (create_order SUPPORTED_FUTURES env sj' db str_trade r
                     simulation w))
    = exchange w ++ CallListPositions :: rest.
Proof.
  intros Hv Hg Hincl.
  destruct (validate_symbol_passed (OrderRequest.symbol r) l tt Hv)
    as (api0 & l0 & Hg0 & Hin0).
  pose proof (Hincl api0 l0 Hg0 _ Hin0) as Hin.
  assert (Hc : exists contract,
             get_contract_from_symbol SUPPORTED_FUTURES api
               (OrderRequest.symbol r) = Return contract).
  { unfold get_contract_from_symbol, get_valid_symbols in *.
    apply in_map_iff in Hin. destruct Hin as (c & Hs & Hin).
    destruct (find_present
                (fun contract =>
                   (symbol contract =? OrderRequest.symbol r)%string)
                _ c Hin) as (x & ->); [now apply String.eqb_eq | eauto]. }
  destruct Hc as (contract & Hc).
  destruct (dispatch_order_reads_first api (OrderRequest.action r)
              (OrderRequest.symbol r) (OrderRequest.quantity r) contract
              (exchange w) Hc) as (rest & o' & Hd).
  exists contract, rest. split; [exact Hc |].
  unfold create_order, record_then, commit. rewrite Hg, Hd.
  destruct o' as [[t |] | e]; cbn [history logins exchange].
  - destruct (str_trade t); [| reflexivity].
    destruct (on_commit db _ _); reflexivity.
  - destruct (on_commit db _ _); reflexivity.
  - destruct (is_OrderError e); [| reflexivity].
    destruct (on_commit db _ _); reflexivity.
Qed.

End ValidationFacts.

(* ===================================================================== *)
(** ** Further properties: the supported families *)

Lemma isspace_upper_char (c : Ascii.ascii) :
  isspace (upper_char c) = isspace c.
Proof. destruct c as [[] [] [] [] [] [] [] []]; reflexivity. Qed.

Lemma is_comma_upper_char (c : Ascii.ascii) :
  is_comma (upper_char c) = is_comma c.
Proof. destruct c as [[] [] [] [] [] [] [] []]; reflexivity. Qed.

Lemma upper_char_twice (c : Ascii.ascii) :
  upper_char (upper_char c) = upper_char c.
Proof. destruct c as [[] [] [] [] [] [] [] []]; reflexivity. Qed.

Lemma upper_twice (s : string) : upper (upper s) = upper s.
Proof.
  induction s as [| c s IH]; simpl; [reflexivity |].
  now rewrite upper_char_twice, IH.
Qed.

Lemma lstrip_upper (s : string) : lstrip (upper s) = upper (lstrip s).
Proof.
  induction s as [| c s IH]; simpl; [reflexivity |].
  rewrite isspace_upper_char. now destruct (isspace c).
Qed.

Lemma rstrip_upper (s : string) : rstrip (upper s) = upper (rstrip s).
Proof.
  induction s as [| c s IH]; simpl; [reflexivity |].
  rewrite IH, isspace_upper_char.
  destruct (rstrip s); simpl; [now destruct (isspace c) | reflexivity].
Qed.

Lemma rstrip_twice (s : string) : rstrip (rstrip s) = rstrip s.
Proof.
  induction s as [| c s IH]; simpl; [reflexivity |].
  destruct (rstrip s) as [| a k] eqn:E.
  - destruct (isspace c) eqn:Hc; simpl; [reflexivity | now rewrite Hc].
  - simpl in *. now rewrite IH.
Qed.

Lemma lstrip_of_rstrip_of_lstrip (s : string) :
  lstrip (rstrip (lstrip s)) = rstrip (lstrip s).
Proof.
  induction s as [| c s IH]; simpl; [reflexivity |].
  destruct (isspace c) eqn:Hc; [assumption |].
  simpl. destruct (rstrip s); rewrite ?Hc; simpl; rewrite ?Hc; reflexivity.
Qed.

Lemma strip_twice (s : string) : strip (strip s) = strip s.
Proof.
  unfold strip. now rewrite lstrip_of_rstrip_of_lstrip, rstrip_twice.
Qed.

Lemma strip_upper (s : string) : strip (upper s) = upper (strip s).
Proof. unfold strip. now rewrite lstrip_upper, rstrip_upper. Qed.

Lemma comma_free_upper (s : string) : comma_free s -> comma_free (upper s).
Proof.
  induction s as [| c s IH]; simpl; [auto |].
  intros [Hc Hs]. rewrite is_comma_upper_char. auto.
Qed.

Lemma comma_free_lstrip (s : string) : comma_free s -> comma_free (lstrip s).
Proof.
  induction s as [| c s IH]; simpl; [auto |].
  intros [Hc Hs]. destruct (isspace c); simpl; auto.
Qed.

Lemma comma_free_rstrip (s : string) : comma_free s -> comma_free (rstrip s).
Proof.
  induction s as [| c s IH]; simpl; [auto |].
  intros [Hc Hs]. specialize (IH Hs).
  destruct (rstrip s); [destruct (isspace c) |]; simpl in *; auto.
Qed.

Lemma split_comma_items (s : string) :
  split_comma s <> [] /\ Forall comma_free (split_comma s).
Proof.
  induction s as [| c s [IHn IHf]]; simpl.
  - split; [discriminate | repeat constructor].
  - destruct (is_comma c) eqn:Hc.
    + split; [discriminate |]. constructor; simpl; auto.
    + destruct (split_comma s) as [| item items]; [now destruct IHn |].
      split; [discriminate |].
      inversion IHf; subst. constructor; simpl; auto.
Qed.

(** X22. The supported families as loaded: every family name kept from
    the setting is not empty, holds no comma, has no white space at
    either end and is in upper case (trimming it or upper-casing it again
    changes nothing). *)
Theorem loaded_families_are_clean (value : option string) (f : string) :
  ascii_only (getattr value "MXF,TXF") ->
  In f (load_SUPPORTED_FUTURES value) ->
  f <> "" /\ comma_free f /\ strip f = f /\ upper f = f.
Proof.
  intros _ Hin. unfold load_SUPPORTED_FUTURES in Hin.
  apply in_map_iff in Hin. destruct Hin as (x & <- & Hx).
  apply filter_In in Hx. destruct Hx as [Hx Hne].
  apply negb_true_iff, String.eqb_neq in Hne.
  destruct (split_comma_items (getattr value "MXF,TXF")) as [_ Hcf].
  rewrite Forall_forall in Hcf. specialize (Hcf x Hx).
  repeat split.
  - destruct (strip x); [congruence | discriminate].
  - apply comma_free_upper. unfold strip.
    now apply comma_free_rstrip, comma_free_lstrip.
  - now rewrite strip_upper, strip_twice.
  - apply upper_twice.
Qed.

Lemma lstrip_all_space (s : string) : all_space s -> lstrip s = "".
Proof.
  induction s as [| c s IH]; simpl; [auto |].
  intros [-> Hs]. auto.
Qed.

Lemma split_comma_blank (s : string) :
  blank s -> Forall all_space (split_comma s).
Proof.
  induction s as [| c s IH]; simpl.
  - intros _. repeat constructor.
  - intros [Hc Hs]. specialize (IH Hs).
    destruct (is_comma c) eqn:Hcomma.
    + constructor; simpl; auto.
    + destruct Hc as [Hc | Hc]; [| congruence].
      destruct (split_comma s) as [| item items]; [repeat constructor; auto |].
      inversion IH; subst. constructor; simpl; auto.
Qed.

(** X23. A blank setting names no family: when [SUPPORTED_FUTURES] is set
    to nothing but white space and commas (the empty text included), no
    family is loaded, the default is not used, no contract is tradable
    and the lookup of every symbol raises [ValueError]. *)
Theorem blank_setting_disables_every_symbol (setting : string)
  (api : Shioaji) (sym : string) :
  blank setting ->
  load_SUPPORTED_FUTURES (Some setting) = [] /\
  _get_futures_contracts (load_SUPPORTED_FUTURES (Some setting)) api = [] /\
  exists e,
    get_contract_from_symbol (load_SUPPORTED_FUTURES (Some setting)) api sym
    = Raise e /\
    exc_class e = ValueError.
Proof.
  intros Hb.
  assert (E : load_SUPPORTED_FUTURES (Some setting) = []).
  { unfold load_SUPPORTED_FUTURES. simpl getattr.
    pose proof (split_comma_blank setting Hb) as H.
    induction H as [| x items Hx _ IH]; simpl; [reflexivity |].
    assert (Sx : strip x = "").
    { unfold strip. now rewrite (lstrip_all_space x Hx). }
    rewrite Sx. simpl. exact IH. }
  rewrite E. split; [reflexivity |]. split; [reflexivity |].
  eexists. split; reflexivity.
Qed.

(* ===================================================================== *)
(** ** The further properties on the sample data *)

Lemma tradable_contract_origin_witness :
  In Sample.MXF202601
     (_get_futures_contracts Sample.families (Sample.session [])).
Proof.
  apply (proj2 (tradable_contract_origin Sample.families (Sample.session [])
                  Sample.MXF202601)).
  exists "MXF", [Sample.MXFR1; Sample.MXF202601; Sample.MXF202602].
  repeat split.
  - simpl. auto.
  - simpl. auto.
Defined.

Lemma lookup_by_code_after_symbol_witness :
  get_contract_from_contract_code Sample.families (Sample.session []) "MXFA6"
  = Return Sample.MXF202601.
Proof.
  destruct (proj1 (lookup_by_code_after_symbol Sample.families
                     (Sample.session []) "MXF202601" Sample.MXF202601
                     eq_refl))
    as (c' & E & _ & Hnd).
  change (code Sample.MXF202601) with "MXFA6" in E.
  rewrite E. f_equal. apply Hnd.
  vm_compute.
  repeat constructor; simpl; intros H;
    repeat (destruct H as [H | H]; [discriminate H |]); exact H.
Defined.

Lemma rolling_and_actual_same_position_witness :
  resolve_actual_contract_code Sample.families
    (Sample.session [Sample.short "MXFA6" 3]) Sample.MXFR1 = "MXFA6"
  /\
  get_current_position Sample.families
    (Sample.session [Sample.short "MXFA6" 3]) Sample.MXFR1 []
  = get_current_position Sample.families
      (Sample.session [Sample.short "MXFA6" 3]) Sample.MXF202601 [].
Proof.
  apply (rolling_and_actual_same_position Sample.families
           (Sample.session [Sample.short "MXFA6" 3])
           Sample.MXFR1 Sample.MXF202601 []).
  - reflexivity.
  - vm_compute. right. left. reflexivity.
  - unfold actual_for. simpl. repeat split. discriminate.
  - intros c Hc (Hcat & Hmonth & Hne). vm_compute in Hc.
    repeat (destruct Hc as [<- | Hc]; [simpl in Hcat, Hmonth, Hne |]);
      try reflexivity; try discriminate Hcat; try discriminate Hmonth;
      try (now exfalso; apply Hne); destruct Hc.
Defined.

Lemma unknown_symbol_rejected_before_any_call_witness :
  exists cause e',
    exc_class cause = ValueError /\
    exc_class e' = OrderError /\
    exc_cause e' = Some cause /\
    str_exc e' = ("Contract not found: " ++ str_exc cause)%string /\
    place_entry_order Sample.families (Sample.session []) "DOES_NOT_EXIST"
                      1 Buy [] = (Raise e', []) /\
    place_exit_order Sample.families (Sample.session []) "DOES_NOT_EXIST"
                     Sell [] = (Raise e', []).
Proof.
  apply (unknown_symbol_rejected_before_any_call Sample.families
           (Sample.session []) "DOES_NOT_EXIST" 1 Buy Sell []).
  vm_compute. intros H.
  repeat (destruct H as [H | H]; [discriminate H |]). exact H.
Defined.

Lemma account_error_on_position_read_witness :
  exists e',
    exc_class e' = OrderError /\
    exc_cause e' = Some (new_exc AccountNotSignError "not signed") /\
    str_exc e' = "Account error: not signed" /\
    place_entry_order Sample.families
      (Demo.blind (new_exc AccountNotSignError "not signed"))
      "MXF202601" 1 Buy []
    = (Raise e', [CallListPositions]) /\
    place_exit_order Sample.families
      (Demo.blind (new_exc AccountNotSignError "not signed"))
      "MXF202601" Buy []
    = (Raise e', [CallListPositions]).
Proof.
  exact (account_error_on_position_read Sample.families
           (Demo.blind (new_exc AccountNotSignError "not signed"))
           "MXF202601" 1 Buy Buy Sample.MXF202601
           (new_exc AccountNotSignError "not signed") []
           eq_refl eq_refl eq_refl).
Defined.

Lemma other_position_failure_passes_through_witness :
  place_entry_order Sample.families
    (Demo.blind (new_exc SjTimeoutError "slow")) "MXF202601" 1 Buy []
  = (Raise (new_exc SjTimeoutError "slow"), [CallListPositions]) /\
  place_exit_order Sample.families
    (Demo.blind (new_exc SjTimeoutError "slow")) "MXF202601" Buy []
  = (Raise (new_exc SjTimeoutError "slow"), [CallListPositions]).
Proof.
  exact (other_position_failure_passes_through Sample.families
           (Demo.blind (new_exc SjTimeoutError "slow"))
           "MXF202601" 1 Buy Buy Sample.MXF202601
           (new_exc SjTimeoutError "slow") [] eq_refl eq_refl eq_refl).
Defined.

Lemma accepted_order_is_returned_witness :
  place_entry_order Sample.families
    (Sample.session [Sample.short "MXFA6" 3]) "MXFR1" 5 Buy []
  = (Return (Trade.mk (market_order Buy 8) Sample.idle),
     [CallListPositions;
      CallPlaceOrder Sample.MXFR1 (market_order Buy 8)])
  /\
  place_exit_order Sample.families
    (Sample.session [Sample.short "MXFA6" 3]) "MXFR1" Sell []
  = (Return (Some (Trade.mk (market_order Buy 3) Sample.idle)),
     [CallListPositions;
      CallPlaceOrder Sample.MXFR1 (market_order Buy 3)]).
Proof.
  pose proof (accepted_order_is_returned Sample.families
                (Sample.session [Sample.short "MXFA6" 3]) "MXFR1" 5 Buy Sell
                Sample.MXFR1 (Some (- 3)) [] eq_refl eq_refl) as [H1 H2].
  split.
  - exact (H1 ltac:(lia) (Trade.mk (market_order Buy 8) Sample.idle)
              eq_refl).
  - exact (H2 (market_order Buy 3)
              (Trade.mk (market_order Buy 3) Sample.idle) eq_refl eq_refl).
Defined.

Lemma entry_order_fill_effect_witness :
  exists order,
    submitted
      (calls (place_entry_order Sample.families
                (Sample.session [Sample.short "MXFA6" 3]) "MXFR1" 5 Buy) [])
    = submitted [] ++ [(Sample.MXFR1, order)] /\
    Order.action order = Buy /\
    filled_position (or_0 (Some (- 3))) order
    = Z.max (or_0 (Some (- 3))) 0 + 5.
Proof.
  exact (entry_order_fill_effect Sample.families
           (Sample.session [Sample.short "MXFA6" 3]) "MXFR1" 5 Buy
           Sample.MXFR1 (Some (- 3)) [] ltac:(lia) eq_refl eq_refl).
Defined.

Lemma exit_order_positive_and_flattening_witness :
  exists news,
    submitted
      (calls (place_exit_order Sample.families
                (Sample.session [Sample.long "MXFA6" 7]) "MXF202601" Buy) [])
    = news /\
    Forall (fun co => 0 < Order.quantity (snd co)) news /\
    Forall (fun co => fst co = Sample.MXF202601 /\
                      filled_position 7 (snd co) = 0) news.
Proof.
  destruct (exit_order_positive_and_flattening Sample.families
              (Sample.session [Sample.long "MXFA6" 7]) "MXF202601" Buy [])
    as (news & E & _ & Hpos & Hflat).
  exists news. split; [exact E |]. split; [exact Hpos |].
  exact (Hflat Sample.MXF202601 (Some 7) eq_refl eq_refl).
Defined.

Lemma credentials_gate_the_login_witness :
  exists e,
    get_api_client Demo.no_env (Demo.broker []) true [] = (Raise e, []) /\
    exc_class e = LoginError /\ exc_cause e = None.
Proof.
  apply (proj1 (credentials_gate_the_login Demo.no_env (Demo.broker [])
                  true [])).
  left. reflexivity.
Defined.

Lemma simulation_login_needs_no_certificate_witness :
  get_api_client Demo.live_env (Demo.broker []) true []
  = get_api_client Demo.sim_env (Demo.broker []) true [].
Proof.
  apply (proj2 (simulation_login_needs_no_certificate Demo.sim_env
                  Demo.live_env (Demo.broker []) [])); reflexivity.
Defined.

Lemma live_session_is_certified_witness :
  get_api_client Demo.live_env (Demo.broker []) false []
  = (Return (Sample.session []),
     [CallShioaji false; CallLogin "key" "secret"; CallListAccounts;
      CallActivateCA "/ca/Sinopac.pfx" "pw" "A123456789"]).
Proof.
  apply (proj2 (live_session_is_certified Demo.live_env (Demo.broker [])
                  [] _ (Sample.session []))).
  exists "key", "secret", "/ca/Sinopac.pfx", "pw",
         (Account.mk "A123456789"), [], true.
  repeat split.
Defined.

Lemma inner_login_error_is_wrapped_witness :
  exists inner e' l',
    get_api_client Demo.sim_env (Demo.broker []) false [] = (Raise e', l') /\
    exc_class inner = LoginError /\
    exc_class e' = LoginError /\
    exc_cause e' = Some inner /\
    str_exc e'
    = ("Unexpected error during login: " ++ str_exc inner)%string /\
    In (CallLogin "key" "secret") l' /\
    existsb is_activation l' = existsb is_activation [].
Proof.
  apply (inner_login_error_is_wrapped Demo.sim_env (Demo.broker []) []
           "key" "secret" (Sample.session [])); try reflexivity.
  left. reflexivity.
Defined.

Lemma create_order_unhandled_witness :
  (create_order Sample.families Demo.sim_env
     (Demo.unreadable (new_exc SjTimeoutError "slow")) Demo.storing Demo.show
     (OrderRequest.mk long_entry 2 "MXF202601") true Demo.start
   = (Unhandled (new_exc SjTimeoutError "slow"),
      mkWorld [CallShioaji true; CallLogin "key" "secret"]
              [CallListPositions] [])
   /\
   history (mkWorld [CallShioaji true; CallLogin "key" "secret"]
                    [CallListPositions] [])
   = history Demo.start)
  /\
  (create_order Sample.families Demo.sim_env (Demo.broker []) Demo.down
     Demo.show (OrderRequest.mk long_entry 2 "MXF202601") true Demo.start
   = (Unhandled (new_exc (OtherException "OperationalError")
                   "database is locked"),
      mkWorld [CallShioaji true; CallLogin "key" "secret"]
              [CallListPositions;
               CallPlaceOrder Sample.MXF202601 (market_order Buy 2)] [])
   /\
   history (mkWorld [CallShioaji true; CallLogin "key" "secret"]
              [CallListPositions;
               CallPlaceOrder Sample.MXF202601 (market_order Buy 2)] [])
   = history Demo.start).
Proof.
  split; (split; [reflexivity |]).
  - exact (proj1
             (create_order_unhandled Sample.families Demo.sim_env
                (Demo.unreadable (new_exc SjTimeoutError "slow"))
                Demo.storing Demo.show
                (OrderRequest.mk long_entry 2 "MXF202601") true Demo.start
                (mkWorld [CallShioaji true; CallLogin "key" "secret"]
                         [CallListPositions] [])
                (new_exc SjTimeoutError "slow") eq_refl)).
  - exact (proj1
             (create_order_unhandled Sample.families Demo.sim_env
                (Demo.broker []) Demo.down Demo.show
                (OrderRequest.mk long_entry 2 "MXF202601") true Demo.start
                (mkWorld [CallShioaji true; CallLogin "key" "secret"]
                   [CallListPositions;
                    CallPlaceOrder Sample.MXF202601 (market_order Buy 2)] [])
                (new_exc (OtherException "OperationalError")
                   "database is locked") eq_refl)).
Defined.

Lemma validated_request_reaches_position_read_witness :
  exists contract rest,
    get_contract_from_symbol Sample.families (Sample.session []) "MXF202601"
    = Return contract /\
    exchange (snd (create_order Sample.families Demo.sim_env (Demo.broker [])
                     Demo.storing Demo.show
                     (OrderRequest.mk long_entry 2 "MXF202601")
                     true Demo.start))
    = exchange Demo.start ++ CallListPositions :: rest.
Proof.
  apply (validated_request_reaches_position_read Sample.families
           Demo.sim_env (Demo.broker [Sample.long "MXFA6" 1])
           (Demo.broker []) Demo.storing Demo.show
           (OrderRequest.mk long_entry 2 "MXF202601") true []
           [CallShioaji true; CallLogin "key" "secret"] Demo.start
           (Sample.session [])).
  - reflexivity.
  - reflexivity.
  - intros api0 l0 H. vm_compute in H. injection H as <- _.
    vm_compute. intros x Hx. exact Hx.
Defined.

Lemma loaded_families_are_clean_witness :
  In "MXF" (load_SUPPORTED_FUTURES (Some " mxf , txf,, ")) /\
  "MXF" <> "" /\ comma_free "MXF" /\ strip "MXF" = "MXF" /\
  upper "MXF" = "MXF".
Proof.
  assert (Hin : In "MXF" (load_SUPPORTED_FUTURES (Some " mxf , txf,, "))).
  { vm_compute. left. reflexivity. }
  split; [exact Hin |].
  apply (loaded_families_are_clean (Some " mxf , txf,, ") "MXF");
    [| exact Hin].
  simpl. repeat split; apply Nat.ltb_lt; reflexivity.
Defined.

Lemma blank_setting_disables_every_symbol_witness :
  load_SUPPORTED_FUTURES (Some " , ,") = [] /\
  _get_futures_contracts (load_SUPPORTED_FUTURES (Some " , ,"))
                         (Sample.session []) = [] /\
  exists e,
    get_contract_from_symbol (load_SUPPORTED_FUTURES (Some " , ,"))
                             (Sample.session []) "MXF202601" = Raise e /\
    exc_class e = ValueError.
Proof.
  apply (blank_setting_disables_every_symbol " , ," (Sample.session [])
           "MXF202601").
  simpl. repeat split; auto.
Defined.
